(** * Equine order backend: a model of [server.js]

    The model follows the last revision of [server.js] (the one with the
    cart endpoints, the admin login and the full tracking response).  Every
    route handler is a function from the request, the environment of the
    call and the database to the new database and the HTTP response.

    - The two Mongoose collections are finite maps keyed by the field that
      carries the [unique: true] index ([orderId], [sessionId]).
    - What a handler cannot decide on its own is read from [Env]: the clock
      ([Date.now()]), the two draws of [Math.random()], the process
      environment variable [ADMIN_PASSWORD], and whether the awaited store
      call rejects (the [catch] branch of each handler).
    - Request bodies carry the fields the schema keeps, typed as the schema
      casts them; the Mongo bookkeeping fields [_id] and [__v] are left out.
    - The TTL index on [Cart.updatedAt] is a background task of the database
      and is not part of a request; it is not modelled. *)

From Stdlib Require Import ZArith QArith Qround Qpower Lqa SpecFloat String Ascii List Lia.
From stdpp Require Import base option list gmap strings pretty sorting.

Local Open Scope string_scope.
Local Open Scope Z_scope.

(** ** Data model *)

(** Cart lines and order items have schema type [Array]: any JSON value. *)
#[warnings="-register-all"] Inductive Json : Type :=
| JNull
| JBool (b : bool)
| JNum (n : Q)
| JStr (s : string)
| JArr (xs : list Json)
| JObj (fields : list (string * Json)).

(** [customer: { name: {type: String, default: "Guest"}, email, address }] *)
Record Customer : Type := {
  name : string;
  email : option string;
  address : option string
}.

(** [orderSchema] *)
Record Order : Type := {
  orderId : string;
  customer : Customer;
  items : list Json;
  paymentMethod : option string;
  deliveryMethod : option string;
  subtotal : option Q;
  shippingFee : option Q;
  total : option Q;
  status : string;
  receiptImg : option string;
  createdAt : Z
}.

(** [cartSchema] *)
Record Cart : Type := {
  sessionId : string;
  cart_items : list Json;
  updatedAt : Z
}.

(** The body of [POST /api/orders]: every schema path may be absent. *)
Record CustomerData : Type := {
  cd_name : option string;
  cd_email : option string;
  cd_address : option string
}.

Record OrderData : Type := {
  od_orderId : option string;
  od_customer : option CustomerData;
  od_items : option (list Json);
  od_paymentMethod : option string;
  od_deliveryMethod : option string;
  od_subtotal : option Q;
  od_shippingFee : option Q;
  od_total : option Q;
  od_status : option string;
  od_receiptImg : option string;
  od_createdAt : option Z
}.

(** The database: the [Order] and [Cart] collections. *)
Record Db : Type := {
  orders : gmap string Order;
  carts : gmap string Cart
}.

Definition with_orders (m : gmap string Order) (db : Db) : Db :=
  {| orders := m; carts := carts db |}.

Definition with_carts (m : gmap string Cart) (db : Db) : Db :=
  {| orders := orders db; carts := m |}.

Definition empty_db : Db := {| orders := ∅; carts := ∅ |}.

(** What the handler reads from outside the request. *)
Record Env : Type := {
  now : Z;                          (* Date.now() *)
  random1 : Q;                      (* first Math.random() of the call *)
  random2 : Q;                      (* second Math.random() of the call *)
  storeError : option string;       (* the awaited store call rejects *)
  ADMIN_PASSWORD : option string    (* process.env.ADMIN_PASSWORD *)
}.

(** The interval [[0,1)] of the results of [Math.random()]. *)
Definition unit_interval (r : Q) : Prop := (0 <= r)%Q ∧ (r < 1)%Q.

(** ** Responses: [res.status(code).json(body)] *)

Inductive Body : Type :=
| Failure (message : string)                       (* {success: false, message} *)
| Success                                          (* {success: true} *)
| CartBody (sid : string) (its : list Json) (upd : option Z)
                                                   (* the cart document, or {sessionId, items: []} *)
| Token (token : string)                           (* {success: true, token} *)
| Created (id : string) (order : Order)            (* {success: true, orderId, order} *)
| Uploaded (fileUrl : string) (order : option Order)
                                                   (* {success: true, fileUrl, order} *)
| OrderList (all : list Order)                     (* the array of orders *)
| Updated (order : option Order)                   (* {success: true, order} *)
| Tracked (st customerName : string) (tot : option Q) (id : string) (created : Z).
                                                   (* {success: true, status, customerName,
                                                       total, orderId, createdAt} *)

Record Response : Type := {
  code : Z;
  body : Body
}.

Definition respond (c : Z) (b : Body) : Response := {| code := c; body := b |}.

(** ** The store: Mongoose model methods *)

(** An awaited promise either resolves or rejects with an error. *)
Inductive Outcome (A : Type) : Type :=
| Resolved (a : A)
| Rejected (message : string).
Arguments Resolved {A} a.
Arguments Rejected {A} message.

(** A store call: when the store is failing the promise rejects; a rejected
    call is taken to have written nothing. *)
Definition store {A : Type} (env : Env) (op : Db → Db * Outcome A) (db : Db)
  : Db * Outcome A :=
  match storeError env with
  | Some m => (db, Rejected m)
  | None => op db
  end.

(** [try { ... await op ... res.status(..).json(..) } catch (error)
     { res.status(500).json({ success: false, message: error.message }) }] *)
Definition try_catch {A : Type} (r : Db * Outcome A) (k : A → Response)
  : Db * Response :=
  match r with
  | (db', Resolved a) => (db', k a)
  | (db', Rejected m) => (db', respond 500 (Failure m))
  end.

(** The message of the driver's duplicate-key error, up to the names of the
    collection and the index that follow it. *)
Definition duplicate_key : string := "E11000 duplicate key error".

(** [Order.findOne({ orderId })] *)
Definition Order_findOne (env : Env) (id : string) : Db → Db * Outcome (option Order) :=
  store env (λ db, (db, Resolved (orders db !! id))).

(** [newOrder.save()]: the unique index on [orderId] rejects a second
    document with the same key. *)
Definition Order_save (env : Env) (doc : Order) : Db → Db * Outcome Order :=
  store env (λ db,
    match orders db !! orderId doc with
    | Some _ => (db, Rejected duplicate_key)
    | None => (with_orders (<[orderId doc := doc]> (orders db)) db, Resolved doc)
    end).

(** [Order.findOneAndUpdate({ orderId }, update, { new: true })]: no upsert,
    so a missing document resolves to [null] and nothing is written. *)
Definition Order_findOneAndUpdate (env : Env) (id : string) (update : Order → Order)
  : Db → Db * Outcome (option Order) :=
  store env (λ db,
    match orders db !! id with
    | Some o => (with_orders (<[id := update o]> (orders db)) db, Resolved (Some (update o)))
    | None => (db, Resolved None)
    end).

(** [Order.find().sort({ createdAt: -1 })] *)
Definition newer_first (a b : Order) : Prop := createdAt b ≤ createdAt a.

#[local] Instance newer_first_dec : RelDecision newer_first :=
  λ a b, decide (createdAt b ≤ createdAt a).

Definition Order_find_sorted (env : Env) : Db → Db * Outcome (list Order) :=
  store env (λ db, (db, Resolved (merge_sort newer_first (map_to_list (orders db)).*2))).

(** [Cart.findOne({ sessionId })] *)
Definition Cart_findOne (env : Env) (sid : string) : Db → Db * Outcome (option Cart) :=
  store env (λ db, (db, Resolved (carts db !! sid))).

(** [Cart.findOneAndUpdate({ sessionId }, { items, updatedAt }, { upsert: true, new: true })] *)
Definition Cart_upsert (env : Env) (sid : string) (its : list Json) (t : Z)
  : Db → Db * Outcome Cart :=
  store env (λ db,
    let doc :=
      match carts db !! sid with
      | Some c => {| sessionId := sessionId c; cart_items := its; updatedAt := t |}
      | None => {| sessionId := sid; cart_items := its; updatedAt := t |}
      end in
    (with_carts (<[sid := doc]> (carts db)) db, Resolved doc)).

(** [Cart.deleteOne({ sessionId })] *)
Definition Cart_deleteOne (env : Env) (sid : string) : Db → Db * Outcome unit :=
  store env (λ db, (with_carts (delete sid (carts db)) db, Resolved tt)).

(** ** Route handlers *)

(** [GET /api/cart/:sessionId]: a missing cart is answered with the object
    [{ sessionId, items: [] }] built on the spot. *)
Definition getCart (env : Env) (sid : string) (db : Db) : Db * Response :=
  try_catch (Cart_findOne env sid db) (λ cart,
    match cart with
    | Some c => respond 200 (CartBody (sessionId c) (cart_items c) (Some (updatedAt c)))
    | None => respond 200 (CartBody sid [] None)
    end).

(** [POST /api/cart/:sessionId] with body [{ items }] *)
Definition postCart (env : Env) (sid : string) (its : list Json) (db : Db) : Db * Response :=
  try_catch (Cart_upsert env sid its (now env) db) (λ _, respond 200 Success).

(** [DELETE /api/cart/:sessionId] *)
Definition deleteCart (env : Env) (sid : string) (db : Db) : Db * Response :=
  try_catch (Cart_deleteOne env sid db) (λ _, respond 200 Success).

(** A JavaScript string is truthy when it is not empty. *)
Definition truthy (s : string) : bool := negb (String.eqb s "").

Definition default_password : string := "equineadmin123".

(** [process.env.ADMIN_PASSWORD || 'equineadmin123'] *)
Definition validPassword (env : Env) : string :=
  match ADMIN_PASSWORD env with
  | Some s => if truthy s then s else default_password
  | None => default_password
  end.

(** [POST /api/admin/login] with body [{ password }] *)
Definition adminLogin (env : Env) (password : string) : Response :=
  if String.eqb password (validPassword env)
  then respond 200 (Token "secure_admin_session_active")
  else respond 401 (Failure "Unauthorized").

(** ** JavaScript numbers: binary64 arithmetic

    A finite JavaScript number is carried as the rational it denotes.  The
    sum and the product of two numbers are the exact sum and product rounded
    to the nearest binary64 number, ties to the even mantissa (53 bits of
    precision, least exponent -1074).  Numbers of magnitude 2^1024 and above,
    which round to [Infinity], do not occur in this program (its arithmetic
    stays below 10^4) and are not represented. *)

Definition pow2 (e : Z) : Q := (2 ^ e)%Q.

(** The floor of the binary logarithm of a positive rational. *)
Definition Qlog2 (x : Q) : Z :=
  let l := Z.log2 (Qnum x) - Z.log2 (Zpos (Qden x)) in
  if Qle_bool (pow2 l) x then l else l - 1.

(** Rounding to the nearest integer, ties to even. *)
Definition round_half_even (x : Q) : Z :=
  let f := Qfloor x in
  match (x - inject_Z f ?= 1 # 2)%Q with
  | Lt => f
  | Gt => f + 1
  | Eq => if Z.even f then f else f + 1
  end.

(** The exponent of the last mantissa bit of the binary64 numbers around a
    positive [x]: 52 below its binary logarithm, and -1074 for the subnormal
    numbers. *)
Definition ulp_exponent (x : Q) : Z := Z.max (Qlog2 x - 52) (-1074).

Definition round64_pos (x : Q) : Q :=
  (inject_Z (round_half_even (x / pow2 (ulp_exponent x))) * pow2 (ulp_exponent x))%Q.

(** The binary64 number nearest to [x]. *)
Definition round64 (x : Q) : Q :=
  match (x ?= 0)%Q with
  | Eq => 0%Q
  | Gt => round64_pos x
  | Lt => (- round64_pos (- x))%Q
  end.

(** [x * y] and [x + y] on numbers. *)
Definition fmul (x y : Q) : Q := round64 (x * y).

Definition fadd (x y : Q) : Q := round64 (x + y).

(** The binary64 numbers are the rationals the rounding leaves alone. *)
Definition is_double (x : Q) : bool := Qeq_bool (round64 x) x.

(** [Math.random()] returns a binary64 number in [[0,1)]. *)
Definition random_draw (r : Q) : Prop := is_double r = true ∧ unit_interval r.

(** The same arithmetic in the binary64 instance of the standard library's
    [SpecFloat], to compare the two on samples: the value of a finite float,
    an integer as a float, and the draw [m * 2^-k] as a float and as a
    rational. *)
Definition SF2Q (f : spec_float) : Q :=
  match f with
  | S754_finite s m e => (inject_Z (if s then Z.neg m else Z.pos m) * pow2 e)%Q
  | _ => 0%Q
  end.

Definition SFint (n : Z) : spec_float := binary_normalize 53 1024 n 0 false.

Definition SFdraw (m k : Z) : spec_float := binary_normalize 53 1024 m (- k) false.

Definition Qdraw (m k : Z) : Q := (inject_Z m * pow2 (- k))%Q.

(** [lo + draw * w] computed both ways gives the same number. *)
Definition agrees_with_SpecFloat (lo w : Z) (mk : Z * Z) : bool :=
  Qeq_bool
    (SF2Q (SFadd 53 1024 (SFint lo) (SFmul 53 1024 (SFdraw mk.1 mk.2) (SFint w))))
    (fadd (inject_Z lo) (fmul (Qdraw mk.1 mk.2) (inject_Z w)))
  && is_double (Qdraw mk.1 mk.2)
  && Qeq_bool (SF2Q (SFdraw mk.1 mk.2)) (Qdraw mk.1 mk.2).

(** Sample draws [(m, k)] for [m * 2^-k]: zero, the least subnormal number,
    the largest number below one, numbers around halves and powers of two,
    and the two draws 124099189731987/2^52 and 620495948659935/2^52 at which
    the rounded product crosses an integer. *)
Definition sample_draws : list (Z * Z) :=
  [ (0, 53); (1, 1074); (3, 1074); (4503599627370497, 1074);
    (9007199254740991, 53); (9007199254740991, 54); (4503599627370496, 53);
    (4503599627370497, 53); (1, 53); (1, 1); (3, 2); (1, 3);
    (124099189731987, 52); (620495948659935, 52);
    (6004799503160661, 54); (7205759403792794, 56); (2251799813685249, 60);
    (8106479329266893, 53); (5404319552844595, 80); (1234567890123457, 51) ].

(** The draws of the second kind above, as an environment. *)
Definition crossing_draws : Env :=
  {| now := 1700000000000;
     random1 := (124099189731987 # 4503599627370496)%Q;
     random2 := (620495948659935 # 4503599627370496)%Q;
     storeError := None; ADMIN_PASSWORD := None |}.

(** [Math.floor] of a number: the floor of its value, which is exact. *)
Definition Math_floor (x : Q) : Z := Qfloor x.

(** ['EQ-' + Math.floor(1000 + Math.random() * 9000) + '-'
         + Math.floor(100 + Math.random() * 900)],
    the product and the sum in binary64
    ([+] on a string and a number prints the number in decimal). *)
Definition randomRef (env : Env) : string :=
  (("EQ-" +:+ pretty (Math_floor (fadd 1000 (fmul (random1 env) 9000))))
     +:+ "-") +:+ pretty (Math_floor (fadd 100 (fmul (random2 env) 900))).

(** [if (!orderData.orderId) { orderData.orderId = ... }]: the value of
    [orderData.orderId] after the guard. *)
Definition assignedId (env : Env) (d : OrderData) : string :=
  match od_orderId d with
  | Some s => if truthy s then s else randomRef env
  | None => randomRef env
  end.

(** [new Order(orderData)]: absent paths take the schema defaults. *)
Definition new_Order (env : Env) (d : OrderData) (id : string) : Order :=
  {| orderId := id;
     customer :=
       match od_customer d with
       | Some c => {| name := default "Guest" (cd_name c);
                      email := cd_email c;
                      address := cd_address c |}
       | None => {| name := "Guest"; email := None; address := None |}
       end;
     items := default [] (od_items d);
     paymentMethod := od_paymentMethod d;
     deliveryMethod := od_deliveryMethod d;
     subtotal := od_subtotal d;
     shippingFee := od_shippingFee d;
     total := od_total d;
     status := default "Pending Verification" (od_status d);
     receiptImg := od_receiptImg d;
     createdAt := default (now env) (od_createdAt d) |}.

(** [POST /api/orders] *)
Definition postOrder (env : Env) (d : OrderData) (db : Db) : Db * Response :=
  let id := assignedId env d in
  let newOrder := new_Order env d id in
  try_catch (Order_save env newOrder db) (λ _, respond 201 (Created id newOrder)).

(** The message of the [TypeError] that [req.file.filename] throws inside
    the [try] when no file came with the request. *)
Definition no_file : string := "Cannot read properties of undefined (reading 'filename')".

(** [`${req.protocol}://${req.get('host')}/uploads/${req.file.filename}`] *)
Definition fileUrl (protocol host filename : string) : string :=
  protocol +:+ "://" +:+ host +:+ "/uploads/" +:+ filename.

(** The update [{ receiptImg: fileUrl, status: 'Pending Verification' }] *)
Definition set_receipt (url : string) (o : Order) : Order :=
  {| orderId := orderId o;
     customer := customer o;
     items := items o;
     paymentMethod := paymentMethod o;
     deliveryMethod := deliveryMethod o;
     subtotal := subtotal o;
     shippingFee := shippingFee o;
     total := total o;
     status := "Pending Verification";
     receiptImg := Some url;
     createdAt := createdAt o |}.

(** The update [{ status: status }] *)
Definition set_status (s : string) (o : Order) : Order :=
  {| orderId := orderId o;
     customer := customer o;
     items := items o;
     paymentMethod := paymentMethod o;
     deliveryMethod := deliveryMethod o;
     subtotal := subtotal o;
     shippingFee := shippingFee o;
     total := total o;
     status := s;
     receiptImg := receiptImg o;
     createdAt := createdAt o |}.

(** [POST /api/upload-receipt/:orderId]; [file] is [req.file.filename] as
    the upload middleware left it, [None] when the request had no file. *)
Definition uploadReceipt (env : Env) (id protocol host : string) (file : option string)
    (db : Db) : Db * Response :=
  match file with
  | None => (db, respond 500 (Failure no_file))
  | Some filename =>
      let url := fileUrl protocol host filename in
      try_catch (Order_findOneAndUpdate env id (set_receipt url) db)
        (λ updatedOrder, respond 200 (Uploaded url updatedOrder))
  end.

(** [GET /api/admin/orders] *)
Definition adminOrders (env : Env) (db : Db) : Db * Response :=
  try_catch (Order_find_sorted env db) (λ all, respond 200 (OrderList all)).

(** [PUT /api/admin/orders/:orderId/status] with body [{ status }] *)
Definition putStatus (env : Env) (id s : string) (db : Db) : Db * Response :=
  try_catch (Order_findOneAndUpdate env id (set_status s) db)
    (λ updatedOrder, respond 200 (Updated updatedOrder)).

(** [GET /api/track/:orderId] *)
Definition track (env : Env) (id : string) (db : Db) : Db * Response :=
  try_catch (Order_findOne env id db) (λ order,
    match order with
    | None => respond 404 (Failure "Order not found")
    | Some o => respond 200 (Tracked (status o) (name (customer o)) (total o)
                                     (orderId o) (createdAt o))
    end).

(** ** The server: every route of the application *)

Inductive Request : Type :=
| GetCart (sid : string)
| PostCart (sid : string) (its : list Json)
| DeleteCart (sid : string)
| AdminLogin (password : string)
| PostOrder (d : OrderData)
| UploadReceipt (id protocol host : string) (file : option string)
| AdminOrders
| PutStatus (id s : string)
| Track (id : string).

Definition handle (env : Env) (r : Request) (db : Db) : Db * Response :=
  match r with
  | GetCart sid => getCart env sid db
  | PostCart sid its => postCart env sid its db
  | DeleteCart sid => deleteCart env sid db
  | AdminLogin password => (db, adminLogin env password)
  | PostOrder d => postOrder env d db
  | UploadReceipt id protocol host file => uploadReceipt env id protocol host file db
  | AdminOrders => adminOrders env db
  | PutStatus id s => putStatus env id s db
  | Track id => track env id db
  end.

(** Requests served one after the other, each in its own environment. *)
Fixpoint serve (rs : list (Env * Request)) (db : Db) : Db :=
  match rs with
  | [] => db
  | (env, r) :: rest => serve rest (handle env r db).1
  end.

(** ** Predicates of the statements *)

(** The generated reference, as a recogniser: [EQ-dddd-ddd] with no leading zero
    in either group. *)
Definition is_digit (c : ascii) : bool :=
  let n := nat_of_ascii c in (48 <=? n)%nat && (n <=? 57)%nat.

Definition is_nonzero_digit (c : ascii) : bool :=
  let n := nat_of_ascii c in (49 <=? n)%nat && (n <=? 57)%nat.

Definition is_group4 (s : string) : bool :=
  match s with
  | String a1 (String a2 (String a3 (String a4 EmptyString))) =>
      is_nonzero_digit a1 && is_digit a2 && is_digit a3 && is_digit a4
  | _ => false
  end.

Definition is_group3 (s : string) : bool :=
  match s with
  | String b1 (String b2 (String b3 EmptyString)) =>
      is_nonzero_digit b1 && is_digit b2 && is_digit b3
  | _ => false
  end.

Definition is_generated_format (s : string) : bool :=
  match s with
  | String "E" (String "Q" (String "-" (String a1 (String a2 (String a3 (String a4
      (String "-" rest))))))) =>
      is_group4 (String a1 (String a2 (String a3 (String a4 EmptyString))))
      && is_group3 rest
  | _ => false
  end.

(** Every document sits under its own key; this holds in the empty database
    and every route keeps it. *)
Definition consistent (db : Db) : Prop :=
  (∀ k o, orders db !! k = Some o → orderId o = k)
  ∧ (∀ k c, carts db !! k = Some c → sessionId c = k).

(** [o'] is [o] up to [status] and [receiptImg]. *)
Definition same_but_status_and_receipt (o o' : Order) : Prop :=
  orderId o' = orderId o
  ∧ createdAt o' = createdAt o
  ∧ customer o' = customer o
  ∧ items o' = items o
  ∧ paymentMethod o' = paymentMethod o
  ∧ deliveryMethod o' = deliveryMethod o
  ∧ subtotal o' = subtotal o
  ∧ shippingFee o' = shippingFee o
  ∧ total o' = total o.

(** [o'] is [o] up to [status]. *)
Definition same_but_status (o o' : Order) : Prop :=
  same_but_status_and_receipt o o' ∧ receiptImg o' = receiptImg o.

(** ASCII lower-casing, to speak about matches that ignore case. *)
Definition lower_ascii (c : ascii) : ascii :=
  let n := nat_of_ascii c in
  if (65 <=? n)%nat && (n <=? 90)%nat then ascii_of_nat (n + 32) else c.

Fixpoint lower (s : string) : string :=
  match s with
  | EmptyString => EmptyString
  | String c rest => String (lower_ascii c) (lower rest)
  end.

(** ** Sample data *)

Definition env0 : Env :=
  {| now := 1700000000000; random1 := 0; random2 := 0;
     storeError := None; ADMIN_PASSWORD := None |}.

Definition down : Env :=
  {| now := 1700000000000; random1 := 0; random2 := 0;
     storeError := Some "connection lost"; ADMIN_PASSWORD := None |}.

Definition empty_order : OrderData :=
  {| od_orderId := None; od_customer := None; od_items := None;
     od_paymentMethod := None; od_deliveryMethod := None;
     od_subtotal := None; od_shippingFee := None; od_total := None;
     od_status := None; od_receiptImg := None; od_createdAt := None |}.

Definition with_id (id : string) : OrderData :=
  {| od_orderId := Some id; od_customer := None; od_items := None;
     od_paymentMethod := None; od_deliveryMethod := None;
     od_subtotal := None; od_shippingFee := None; od_total := Some (100 # 1)%Q;
     od_status := None; od_receiptImg := None; od_createdAt := None |}.

Definition one_order : Db := (postOrder env0 (with_id "EQ-1000-100") empty_db).1.

Definition with_secret (s : string) : Env :=
  {| now := 1700000000000; random1 := 0; random2 := 0;
     storeError := None; ADMIN_PASSWORD := Some s |}.

Definition half_draws : Env :=
  {| now := 1700000000000; random1 := (1 # 2)%Q; random2 := (3 # 4)%Q;
     storeError := None; ADMIN_PASSWORD := None |}.

Definition two_lines : list Json :=
  [JObj [("sku", JStr "saddle"); ("qty", JNum (1 # 1)%Q)];
   JObj [("sku", JStr "bridle"); ("qty", JNum (2 # 1)%Q)]].

Definition one_line : list Json := [JObj [("sku", JStr "halter")]].

Definition with_cart : Db := (postCart env0 "sess-1" two_lines one_order).1.

Definition busy_day : list (Env * Request) :=
  [ (env0, PutStatus "EQ-1000-100" "Approved");
    (env0, UploadReceipt "EQ-1000-100" "https" "shop.example" (Some "receipt-1.jpg"));
    (env0, PostOrder (with_id "EQ-1000-100"));
    (down, PutStatus "EQ-1000-100" "Lost");
    (env0, DeleteCart "EQ-1000-100");
    (env0, PutStatus "EQ-1000-100" "Shipped") ].

Definition two_orders : Db :=
  (postOrder half_draws empty_order
     (postOrder env0 (with_id "EQ-1000-100") empty_db).1).1.

Definition shipped_order : OrderData :=
  {| od_orderId := Some "EQ-7000-700";
     od_customer := Some {| cd_name := Some "Ada"; cd_email := None; cd_address := None |};
     od_items := Some one_line;
     od_paymentMethod := None; od_deliveryMethod := None;
     od_subtotal := None; od_shippingFee := None; od_total := Some (250 # 1)%Q;
     od_status := Some "Shipped"; od_receiptImg := None; od_createdAt := Some 5 |}.

Definition quiet_day : list (Env * Request) :=
  [ (env0, PostOrder empty_order);
    (half_draws, PostOrder empty_order);
    (env0, PutStatus "EQ-1000-100" "Approved");
    (env0, PostCart "sess-1" one_line) ].

(** ** The upload middleware *)

(** The [filename] callback of the multer disk storage:
    ['receipt-' + Date.now() + path.extname(file.originalname)].
    [extname] stands for [path.extname] of the Node runtime. *)
Definition storage_filename (extname : string → string) (env : Env)
    (originalname : string) : string :=
  ("receipt-" +:+ pretty (now env)) +:+ extname originalname.

(** The upload route with its middleware: [upload.single('receipt')] names
    the file, when there is one, and the handler runs on the result. *)
Definition uploadRoute (extname : string → string) (env : Env) (id protocol host : string)
    (originalname : option string) (db : Db) : Db * Response :=
  uploadReceipt env id protocol host (storage_filename extname env <$> originalname) db.

(** What [path.extname] returns: nothing, or a dot and what follows it. *)
Definition dot_or_empty (e : string) : Prop := e = "" ∨ ∃ rest, e = String "." rest.

Fixpoint no_dot (s : string) : bool :=
  match s with
  | EmptyString => true
  | String c rest => negb (Ascii.eqb c ".") && no_dot rest
  end.

(** A sample [extname]: from the last dot on, nothing when there is no dot. *)
Fixpoint after_last_dot (s : string) : string :=
  match s with
  | EmptyString => EmptyString
  | String c rest =>
      match after_last_dot rest with
      | EmptyString => if Ascii.eqb c "." then s else EmptyString
      | e => e
      end
  end.

(** ** Routes by what they may touch *)

Definition is_read_route (r : Request) : bool :=
  match r with
  | GetCart _ | AdminLogin _ | AdminOrders | Track _ => true
  | _ => false
  end.

Definition is_cart_route (r : Request) : bool :=
  match r with
  | GetCart _ | PostCart _ _ | DeleteCart _ => true
  | _ => false
  end.

(** A payload that leaves the choice of the id to the server. *)
Definition leaves_id_to_server (r : Request) : Prop :=
  match r with
  | PostOrder d => od_orderId d = None ∨ od_orderId d = Some ""
  | _ => True
  end.

Definition draws_in_range (env : Env) : Prop :=
  random_draw (random1 env) ∧ random_draw (random2 env).

Definition later : Env :=
  {| now := 1700000000001; random1 := 0; random2 := 0;
     storeError := None; ADMIN_PASSWORD := None |}.

(** ** Earlier revisions kept in [server.js] *)

(** The first revision (and the second, whose routes are the same): every
    creation draws a fresh reference, the receipt URL is relative, the
    answers carry no order, and a new order awaits payment. *)
Module Rev1.

(** [orderSchema]: [customer] is a free-form [Object]. *)
Record Order : Type := {
  orderId : string;
  customer : option Json;
  items : list Json;
  deliveryMethod : option string;
  paymentMethod : option string;
  subtotal : option Q;
  shippingFee : option Q;
  total : option Q;
  status : string;
  receiptImg : option string;
  createdAt : Z
}.

Record OrderData : Type := {
  od_orderId : option string;
  od_customer : option Json;
  od_items : option (list Json);
  od_deliveryMethod : option string;
  od_paymentMethod : option string;
  od_subtotal : option Q;
  od_shippingFee : option Q;
  od_total : option Q;
  od_status : option string;
  od_receiptImg : option string;
  od_createdAt : option Z
}.

Inductive Body : Type :=
| Failure (message : string)                 (* {success: false, message} *)
| Success                                    (* {success: true} *)
| CreatedRef (id : string)                   (* {success: true, orderId} *)
| UploadedUrl (fileUrl : string)             (* {success: true, fileUrl} *)
| OrderList (all : list Order)               (* the array of orders *)
| TrackedStatus (st : string) (date : Z).    (* {success: true, status, date} *)

Record Response : Type := {
  code : Z;
  body : Body
}.

Definition respond (c : Z) (b : Body) : Response := {| code := c; body := b |}.

(** A store call on the one collection of this revision. *)
Definition store {A : Type} (env : Env)
    (op : gmap string Order → gmap string Order * Outcome A) (db : gmap string Order)
  : gmap string Order * Outcome A :=
  match storeError env with
  | Some m => (db, Rejected m)
  | None => op db
  end.

Definition try_catch {A : Type} (r : gmap string Order * Outcome A) (k : A → Response)
  : gmap string Order * Response :=
  match r with
  | (db', Resolved a) => (db', k a)
  | (db', Rejected m) => (db', respond 500 (Failure m))
  end.

(** [new Order(orderData)] after [orderData.orderId = randomRef] *)
Definition new_Order (env : Env) (d : OrderData) (id : string) : Order :=
  {| orderId := id;
     customer := od_customer d;
     items := default [] (od_items d);
     deliveryMethod := od_deliveryMethod d;
     paymentMethod := od_paymentMethod d;
     subtotal := od_subtotal d;
     shippingFee := od_shippingFee d;
     total := od_total d;
     status := default "Awaiting Payment" (od_status d);
     receiptImg := od_receiptImg d;
     createdAt := default (now env) (od_createdAt d) |}.

(** [POST /api/orders]: the reference is drawn whatever the payload holds. *)
Definition postOrder (env : Env) (d : OrderData) (db : gmap string Order)
  : gmap string Order * Response :=
  let randomRef := randomRef env in
  let newOrder := new_Order env d randomRef in
  try_catch
    (store env (λ db,
       match db !! randomRef with
       | Some _ => (db, Rejected duplicate_key)
       | None => (<[randomRef := newOrder]> db, Resolved newOrder)
       end) db)
    (λ _, respond 201 (CreatedRef randomRef)).

Definition set_receipt (url : string) (o : Order) : Order :=
  {| orderId := orderId o;
     customer := customer o;
     items := items o;
     deliveryMethod := deliveryMethod o;
     paymentMethod := paymentMethod o;
     subtotal := subtotal o;
     shippingFee := shippingFee o;
     total := total o;
     status := "Pending Verification";
     receiptImg := Some url;
     createdAt := createdAt o |}.

Definition set_status (s : string) (o : Order) : Order :=
  {| orderId := orderId o;
     customer := customer o;
     items := items o;
     deliveryMethod := deliveryMethod o;
     paymentMethod := paymentMethod o;
     subtotal := subtotal o;
     shippingFee := shippingFee o;
     total := total o;
     status := s;
     receiptImg := receiptImg o;
     createdAt := createdAt o |}.

(** [Order.findOneAndUpdate({ orderId }, update)]; the resolved value is the
    document as it was, which these handlers do not read. *)
Definition Order_findOneAndUpdate (env : Env) (id : string) (update : Order → Order)
  : gmap string Order → gmap string Order * Outcome (option Order) :=
  store env (λ db,
    match db !! id with
    | Some o => (<[id := update o]> db, Resolved (Some o))
    | None => (db, Resolved None)
    end).

(** [POST /api/upload-receipt/:orderId] with [fileUrl = `/uploads/${req.file.filename}`] *)
Definition uploadReceipt (env : Env) (id : string) (file : option string)
    (db : gmap string Order) : gmap string Order * Response :=
  match file with
  | None => (db, respond 500 (Failure no_file))
  | Some filename =>
      let fileUrl := "/uploads/" +:+ filename in
      try_catch (Order_findOneAndUpdate env id (set_receipt fileUrl) db)
        (λ _, respond 200 (UploadedUrl fileUrl))
  end.

Definition newer_first (a b : Order) : Prop := createdAt b ≤ createdAt a.

#[local] Instance newer_first_decision : RelDecision newer_first :=
  λ a b, decide (createdAt b ≤ createdAt a).

(** [GET /api/admin/orders] *)
Definition adminOrders (env : Env) (db : gmap string Order) : gmap string Order * Response :=
  try_catch
    (store env (λ db, (db, Resolved (merge_sort newer_first (map_to_list db).*2))) db)
    (λ all, respond 200 (OrderList all)).

(** [PUT /api/admin/orders/:orderId/status] *)
Definition putStatus (env : Env) (id s : string) (db : gmap string Order)
  : gmap string Order * Response :=
  try_catch (Order_findOneAndUpdate env id (set_status s) db) (λ _, respond 200 Success).

(** [GET /api/track/:orderId] *)
Definition track (env : Env) (id : string) (db : gmap string Order)
  : gmap string Order * Response :=
  try_catch (store env (λ db, (db, Resolved (db !! id))) db) (λ order,
    match order with
    | None => respond 404 (Failure "Order not found")
    | Some o => respond 200 (TrackedStatus (status o) (createdAt o))
    end).

Inductive Request : Type :=
| PostOrder (d : OrderData)
| UploadReceipt (id : string) (file : option string)
| AdminOrders
| PutStatus (id s : string)
| Track (id : string).

Definition handle (env : Env) (r : Request) (db : gmap string Order)
  : gmap string Order * Response :=
  match r with
  | PostOrder d => postOrder env d db
  | UploadReceipt id file => uploadReceipt env id file db
  | AdminOrders => adminOrders env db
  | PutStatus id s => putStatus env id s db
  | Track id => track env id db
  end.

Fixpoint serve (rs : list (Env * Request)) (db : gmap string Order) : gmap string Order :=
  match rs with
  | [] => db
  | (env, r) :: rest => serve rest (handle env r db).1
  end.

Definition sample : OrderData :=
  {| od_orderId := Some "MINE-1"; od_customer := Some (JStr "Ada");
     od_items := None; od_deliveryMethod := None; od_paymentMethod := None;
     od_subtotal := None; od_shippingFee := None; od_total := Some (100 # 1)%Q;
     od_status := None; od_receiptImg := None; od_createdAt := None |}.

End Rev1.

(** [Array.prototype.indexOf] on an array of strings: the first index whose
    element is strictly equal, or -1. *)
Fixpoint indexOf_from (i : Z) (xs : list string) (x : string) : Z :=
  match xs with
  | [] => -1
  | y :: rest => if String.eqb y x then i else indexOf_from (i + 1) rest x
  end.

Definition indexOf (xs : list string) (x : string) : Z := indexOf_from 0 xs x.

(** What the [origin] function of the CORS options hands to its callback:
    [callback(null, true)] or [callback(new Error(msg), false)]. *)
Inductive CorsDecision : Type :=
| Allowed
| Blocked (message : string).

(** The second revision: CORS limited to a list of origins. *)
Module Rev2.

Definition allowedOrigins : list string :=
  ["http://localhost:3000"; "https://equine-4ya0.onrender.com"].

Definition origin (o : option string) : CorsDecision :=
  match o with
  | None => Allowed
  | Some o =>
      if negb (truthy o) then Allowed
      else if indexOf allowedOrigins o =? -1
           then Blocked "The CORS policy for this site does not allow access from the specified Origin."
           else Allowed
  end.

End Rev2.

(** The third revision: one more origin, and a four-digit reference. *)
Module Rev3.

Definition allowedOrigins : list string :=
  ["http://localhost:3000"; "http://127.0.0.1:5500"; "https://equine-4ya0.onrender.com"].

Definition origin (o : option string) : CorsDecision :=
  match o with
  | None => Allowed
  | Some o =>
      if negb (truthy o) then Allowed
      else if indexOf allowedOrigins o =? -1
           then Blocked "CORS Policy Blocked: Unauthorized Origin"
           else Allowed
  end.

(** ['EQ-' + Math.floor(1000 + Math.random() * 9000)] *)
Definition randomRef (env : Env) : string :=
  "EQ-" +:+ pretty (Math_floor (fadd 1000 (fmul (random1 env) 9000))).

(** [if(!orderData.orderId) { orderData.orderId = ... }] *)
Definition assignedId (env : Env) (supplied : option string) : string :=
  match supplied with
  | Some s => if truthy s then s else randomRef env
  | None => randomRef env
  end.

End Rev3.

(** * Properties *)

(** ** The store layer *)

Section StoreCalls.
Context {A : Type} (env : Env) (op : Db → Db * Outcome A) (db : Db).

Lemma store_answers : storeError env = None → store env op db = op db.
Proof. unfold store. by intros ->. Qed.

Lemma store_rejects (m : string) :
  storeError env = Some m → store env op db = (db, Rejected m).
Proof. unfold store. by intros ->. Qed.

End StoreCalls.

Lemma findOneAndUpdate_hit (env : Env) (id : string) (f : Order → Order) (db : Db) (o : Order) :
  storeError env = None →
  orders db !! id = Some o →
  Order_findOneAndUpdate env id f db
  = (with_orders (<[id := f o]> (orders db)) db, Resolved (Some (f o))).
Proof.
  intros Hup Hfound. unfold Order_findOneAndUpdate.
  rewrite store_answers by done. by rewrite Hfound.
Qed.

Lemma findOneAndUpdate_miss (env : Env) (id : string) (f : Order → Order) (db : Db) :
  storeError env = None →
  orders db !! id = None →
  Order_findOneAndUpdate env id f db = (db, Resolved None).
Proof.
  intros Hup Hmiss. unfold Order_findOneAndUpdate.
  rewrite store_answers by done. by rewrite Hmiss.
Qed.

Lemma findOneAndUpdate_down (env : Env) (id : string) (f : Order → Order) (db : Db) (m : string) :
  storeError env = Some m →
  Order_findOneAndUpdate env id f db = (db, Rejected m).
Proof. intros Hdown. unfold Order_findOneAndUpdate. by rewrite (store_rejects _ _ _ m). Qed.

(** What an update by key does to the lookup of any key. *)
Lemma findOneAndUpdate_lookup (env : Env) (id : string) (f : Order → Order) (db : Db)
    (k : string) (o : Order) :
  orders db !! k = Some o →
  orders (Order_findOneAndUpdate env id f db).1 !! k
  = Some (if decide (k = id) then
            match storeError env with None => f o | Some _ => o end
          else o).
Proof.
  intros Hk. unfold Order_findOneAndUpdate, store.
  destruct (storeError env) as [m|]; simpl.
  - by case_decide.
  - destruct (orders db !! id) as [o0|] eqn:Hid; simpl.
    + case_decide as Hkid.
      * subst k. rewrite lookup_insert_eq. congruence.
      * by rewrite lookup_insert_ne.
    + case_decide; [congruence | done].
Qed.

Lemma findOneAndUpdate_carts (env : Env) (id : string) (f : Order → Order) (db : Db) :
  carts (Order_findOneAndUpdate env id f db).1 = carts db.
Proof.
  unfold Order_findOneAndUpdate, store.
  destruct (storeError env); [done|]. by destruct (orders db !! id).
Qed.

(** The admin listing is newest first. *)
Lemma adminOrders_newest_first (env : Env) (db : Db) (all : list Order) :
  (adminOrders env db).2 = respond 200 (OrderList all) →
  Sorted newer_first all ∧ all ≡ₚ (map_to_list (orders db)).*2.
Proof.
  unfold adminOrders, Order_find_sorted, store.
  destruct (storeError env); simpl; [discriminate|].
  intros [= <-]. split.
  - apply Sorted_merge_sort. intros a b. unfold newer_first. lia.
  - apply merge_sort_Permutation.
Qed.

(** ** Receipt upload *)

(** C1, as stated, fails: uploading a receipt for an order id that is not in
    the store is answered 200 (with the file URL and a null order), not 500. *)
Lemma upload_receipt_unknown_order_is_200 :
  orders empty_db !! "EQ-4821-377" = None
  ∧ uploadReceipt env0 "EQ-4821-377" "https" "shop.example"
      (Some "receipt-1700000000000.jpg") empty_db
    = (empty_db,
       respond 200 (Uploaded "https://shop.example/uploads/receipt-1700000000000.jpg" None))
  ∧ code (uploadReceipt env0 "EQ-4821-377" "https" "shop.example"
            (Some "receipt-1700000000000.jpg") empty_db).2 ≠ 500.
Proof. split; [done|]. split; [reflexivity|]. vm_compute. discriminate. Qed.

(** C1, amended: the receipt upload answers 200 with the file URL and the
    updated order when the order exists; it also answers 200, with the file
    URL and a null order and without touching the store, when no order has
    the given id; it answers 500 when the request carries no file or when the
    store call fails. *)
Theorem upload_receipt_responses (env : Env) (id protocol host : string)
    (file : option string) (db : Db) :
  (file = None →
     uploadReceipt env id protocol host file db = (db, respond 500 (Failure no_file)))
  ∧ (∀ f m, file = Some f → storeError env = Some m →
       uploadReceipt env id protocol host file db = (db, respond 500 (Failure m)))
  ∧ (∀ f o, file = Some f → storeError env = None → orders db !! id = Some o →
       ∃ o', (uploadReceipt env id protocol host file db).2
             = respond 200 (Uploaded (fileUrl protocol host f) (Some o'))
           ∧ orders (uploadReceipt env id protocol host file db).1 !! id = Some o'
           ∧ receiptImg o' = Some (fileUrl protocol host f)
           ∧ status o' = "Pending Verification")
  ∧ (∀ f, file = Some f → storeError env = None → orders db !! id = None →
       uploadReceipt env id protocol host file db
       = (db, respond 200 (Uploaded (fileUrl protocol host f) None))).
Proof.
  repeat split.
  - by intros ->.
  - intros f m -> Hdown. unfold uploadReceipt.
    by rewrite (findOneAndUpdate_down _ _ _ _ m).
  - intros f o -> Hup Hfound. unfold uploadReceipt.
    rewrite (findOneAndUpdate_hit _ _ _ _ o) by done. simpl.
    eexists. split; [reflexivity|]. by rewrite lookup_insert_eq.
  - intros f -> Hup Hmiss. unfold uploadReceipt.
    by rewrite findOneAndUpdate_miss.
Qed.

Lemma upload_receipt_responses_witness :
  uploadReceipt env0 "EQ-1000-100" "https" "shop.example" None one_order
  = (one_order, respond 500 (Failure no_file))
  ∧ uploadReceipt down "EQ-1000-100" "https" "shop.example" (Some "r.png") one_order
    = (one_order, respond 500 (Failure "connection lost"))
  ∧ (∃ o', (uploadReceipt env0 "EQ-1000-100" "https" "shop.example" (Some "r.png") one_order).2
           = respond 200 (Uploaded (fileUrl "https" "shop.example" "r.png") (Some o'))
         ∧ orders (uploadReceipt env0 "EQ-1000-100" "https" "shop.example"
                     (Some "r.png") one_order).1 !! "EQ-1000-100" = Some o'
         ∧ receiptImg o' = Some (fileUrl "https" "shop.example" "r.png")
         ∧ status o' = "Pending Verification")
  ∧ uploadReceipt env0 "EQ-2000-200" "https" "shop.example" (Some "r.png") one_order
    = (one_order, respond 200 (Uploaded (fileUrl "https" "shop.example" "r.png") None)).
Proof.
  split; [|split; [|split]].
  - destruct (upload_receipt_responses env0 "EQ-1000-100" "https" "shop.example"
                None one_order) as (Hnofile & _).
    apply Hnofile. reflexivity.
  - destruct (upload_receipt_responses down "EQ-1000-100" "https" "shop.example"
                (Some "r.png") one_order) as (_ & Hdown & _).
    apply (Hdown "r.png" "connection lost"); reflexivity.
  - destruct (upload_receipt_responses env0 "EQ-1000-100" "https" "shop.example"
                (Some "r.png") one_order) as (_ & _ & Hfound & _).
    apply (Hfound "r.png" (new_Order env0 (with_id "EQ-1000-100") "EQ-1000-100"));
      reflexivity.
  - destruct (upload_receipt_responses env0 "EQ-2000-200" "https" "shop.example"
                (Some "r.png") one_order) as (_ & _ & _ & Hmiss).
    apply (Hmiss "r.png"); reflexivity.
Defined.

(** C2: for an order that exists, attaching a receipt stores the supplied
    reference in [receiptImg] and sets [status] to 'Pending Verification'
    whatever the status was; attaching a second receipt leaves the status at
    'Pending Verification', and attaching the same reference twice changes
    nothing more than attaching it once. *)
Theorem attach_receipt_forces_pending (env : Env) (id protocol host f : string)
    (db : Db) (o : Order) :
  storeError env = None →
  orders db !! id = Some o →
  ∃ o1, orders (uploadReceipt env id protocol host (Some f) db).1 !! id = Some o1
      ∧ receiptImg o1 = Some (fileUrl protocol host f)
      ∧ status o1 = "Pending Verification"
      ∧ (∀ env2 protocol2 host2 f2,
           ∃ o2, orders (uploadReceipt env2 id protocol2 host2 (Some f2)
                           (uploadReceipt env id protocol host (Some f) db).1).1 !! id
                 = Some o2
               ∧ status o2 = status o1)
      ∧ (uploadReceipt env id protocol host (Some f)
           (uploadReceipt env id protocol host (Some f) db).1).1
        = (uploadReceipt env id protocol host (Some f) db).1.
Proof.
  intros Hup Hfound.
  assert (Hfirst : (uploadReceipt env id protocol host (Some f) db).1
                   = with_orders (<[id := set_receipt (fileUrl protocol host f) o]> (orders db)) db).
  { unfold uploadReceipt. by rewrite (findOneAndUpdate_hit _ _ _ _ o). }
  exists (set_receipt (fileUrl protocol host f) o).
  rewrite Hfirst. simpl. rewrite lookup_insert_eq.
  repeat split.
  - intros env2 protocol2 host2 f2. unfold uploadReceipt.
    destruct (storeError env2) as [m|] eqn:Hup2.
    + rewrite (findOneAndUpdate_down _ _ _ _ m) by done. simpl.
      rewrite lookup_insert_eq. by eexists.
    + erewrite findOneAndUpdate_hit; [|done|by apply lookup_insert_eq]. simpl.
      rewrite lookup_insert_eq. by eexists.
  - unfold uploadReceipt.
    erewrite findOneAndUpdate_hit; [|done|by apply lookup_insert_eq]. simpl.
    unfold with_orders. simpl. by rewrite insert_insert_eq.
Qed.

Lemma attach_receipt_forces_pending_witness :
  ∃ o1, orders (uploadReceipt env0 "EQ-1000-100" "https" "shop.example" (Some "r.png")
                  one_order).1 !! "EQ-1000-100" = Some o1
      ∧ receiptImg o1 = Some (fileUrl "https" "shop.example" "r.png")
      ∧ status o1 = "Pending Verification"
      ∧ (∀ env2 protocol2 host2 f2,
           ∃ o2, orders (uploadReceipt env2 "EQ-1000-100" protocol2 host2 (Some f2)
                           (uploadReceipt env0 "EQ-1000-100" "https" "shop.example"
                              (Some "r.png") one_order).1).1 !! "EQ-1000-100"
                 = Some o2
               ∧ status o2 = status o1)
      ∧ (uploadReceipt env0 "EQ-1000-100" "https" "shop.example" (Some "r.png")
           (uploadReceipt env0 "EQ-1000-100" "https" "shop.example" (Some "r.png")
              one_order).1).1
        = (uploadReceipt env0 "EQ-1000-100" "https" "shop.example" (Some "r.png")
             one_order).1.
Proof.
  apply (attach_receipt_forces_pending env0 "EQ-1000-100" "https" "shop.example" "r.png"
           one_order (new_Order env0 (with_id "EQ-1000-100") "EQ-1000-100"));
    reflexivity.
Defined.

(** ** Status update *)

(** C3: for every order id and every status string, the status update
    replaces the status of the order with that id by the supplied value,
    whatever it was, and answers with the updated record; when no order has
    that id the store is left as it was and the answer still has the shape of
    a success (200, [success: true], a null order). *)
Theorem update_status_cases (env : Env) (id s : string) (db : Db) :
  storeError env = None →
  (∀ o, orders db !! id = Some o →
     ∃ o', putStatus env id s db
           = (with_orders (<[id := o']> (orders db)) db, respond 200 (Updated (Some o')))
         ∧ status o' = s
         ∧ o' = set_status s o)
  ∧ (orders db !! id = None →
       putStatus env id s db = (db, respond 200 (Updated None))).
Proof.
  intros Hup. split.
  - intros o Hfound. exists (set_status s o). unfold putStatus.
    by rewrite (findOneAndUpdate_hit _ _ _ _ o).
  - intros Hmiss. unfold putStatus. by rewrite findOneAndUpdate_miss.
Qed.

Lemma update_status_cases_witness :
  (∃ o', putStatus env0 "EQ-1000-100" "Shipped" one_order
         = (with_orders (<["EQ-1000-100" := o']> (orders one_order)) one_order,
            respond 200 (Updated (Some o')))
       ∧ status o' = "Shipped"
       ∧ o' = set_status "Shipped" (new_Order env0 (with_id "EQ-1000-100") "EQ-1000-100"))
  ∧ putStatus env0 "EQ-2000-200" "Shipped" one_order
    = (one_order, respond 200 (Updated None)).
Proof.
  split.
  - destruct (update_status_cases env0 "EQ-1000-100" "Shipped" one_order eq_refl)
      as (Hfound & _).
    apply Hfound. reflexivity.
  - destruct (update_status_cases env0 "EQ-2000-200" "Shipped" one_order eq_refl)
      as (_ & Hmiss).
    apply Hmiss. reflexivity.
Defined.

(** ** Keys and documents agree *)

Lemma consistent_empty : consistent empty_db.
Proof. split; intros k x; simpl; by rewrite lookup_empty. Qed.

Lemma findOneAndUpdate_consistent (env : Env) (id : string) (f : Order → Order) (db : Db) :
  (∀ o, orderId (f o) = orderId o) →
  consistent db →
  consistent (Order_findOneAndUpdate env id f db).1.
Proof.
  intros Hf [Ho Hc]. split.
  - intros k o'. unfold Order_findOneAndUpdate, store.
    destruct (storeError env); simpl; [by apply Ho|].
    destruct (orders db !! id) as [o|] eqn:Hid; simpl; [|by apply Ho].
    destruct (decide (id = k)) as [->|Hne].
    + rewrite lookup_insert_eq. intros [= <-]. rewrite Hf. by apply Ho.
    + rewrite lookup_insert_ne by done. by apply Ho.
  - rewrite findOneAndUpdate_carts. apply Hc.
Qed.

Lemma handle_consistent (env : Env) (r : Request) (db : Db) :
  consistent db → consistent (handle env r db).1.
Proof.
  intros Hdb. destruct r as [sid|sid its|sid|p|d|id pr h file| |id s|id]; simpl.
  - unfold getCart, Cart_findOne, store.
    by destruct (storeError env).
  - unfold postCart, Cart_upsert, store.
    destruct (storeError env); simpl; [done|].
    destruct Hdb as [Ho Hc]. split; simpl; [done|].
    intros k c. destruct (decide (sid = k)) as [->|Hne].
    + rewrite lookup_insert_eq. intros [= <-].
      destruct (carts db !! k) as [c0|] eqn:Hk; simpl; [by apply Hc | done].
    + rewrite lookup_insert_ne by done. apply Hc.
  - unfold deleteCart, Cart_deleteOne, store.
    destruct (storeError env); simpl; [done|].
    destruct Hdb as [Ho Hc]. split; simpl; [done|].
    intros k c Hk. apply lookup_delete_Some in Hk as [_ Hk]. by apply Hc.
  - done.
  - unfold postOrder, Order_save, store.
    destruct (storeError env); simpl; [done|].
    destruct (orders db !! assignedId env d) eqn:Hid; simpl; [done|].
    destruct Hdb as [Ho Hc]. split; simpl; [|done].
    intros k o. destruct (decide (assignedId env d = k)) as [->|Hne].
    + rewrite lookup_insert_eq. by intros [= <-].
    + rewrite lookup_insert_ne by done. apply Ho.
  - unfold uploadReceipt. destruct file as [f|]; [|done].
    pose proof (findOneAndUpdate_consistent env id (set_receipt (fileUrl pr h f)) db
                  (λ _, eq_refl) Hdb) as H.
    by destruct (Order_findOneAndUpdate env id (set_receipt (fileUrl pr h f)) db) as [? []].
  - unfold adminOrders, Order_find_sorted, store.
    by destruct (storeError env).
  - unfold putStatus.
    pose proof (findOneAndUpdate_consistent env id (set_status s) db (λ _, eq_refl) Hdb) as H.
    by destruct (Order_findOneAndUpdate env id (set_status s) db) as [? []].
  - unfold track, Order_findOne, store.
    by destruct (storeError env).
Qed.

Lemma serve_consistent (rs : list (Env * Request)) (db : Db) :
  consistent db → consistent (serve rs db).
Proof.
  revert db. induction rs as [|[env r] rs IH]; intros db Hdb; simpl; [done|].
  apply IH. by apply handle_consistent.
Qed.

(** ** Tracking *)

(** C6: the tracking lookup compares the whole id; when no order has it the
    answer is 404 'Order not found', which is not the 500 of a failing store;
    when an order has it the answer is 200 with the order's status, customer
    name, total, orderId and createdAt. *)
Theorem track_cases (env : Env) (id : string) (db : Db) :
  (storeError env = None → orders db !! id = None →
     track env id db = (db, respond 404 (Failure "Order not found")))
  ∧ (∀ o, storeError env = None → orders db !! id = Some o →
       track env id db
       = (db, respond 200 (Tracked (status o) (name (customer o)) (total o)
                                   (orderId o) (createdAt o)))
       ∧ (consistent db → orderId o = id))
  ∧ (∀ m, storeError env = Some m →
       track env id db = (db, respond 500 (Failure m))).
Proof.
  unfold track, Order_findOne. split; [|split].
  - intros Hup Hmiss. rewrite store_answers by done. by rewrite Hmiss.
  - intros o Hup Hfound. split.
    + rewrite store_answers by done. by rewrite Hfound.
    + intros [Ho _]. by apply Ho.
  - intros m Hdown. by rewrite (store_rejects _ _ _ m).
Qed.

Lemma track_cases_witness :
  track env0 "eq-1000-100" one_order = (one_order, respond 404 (Failure "Order not found"))
  ∧ track env0 "EQ-1000-100" one_order
    = (one_order, respond 200 (Tracked "Pending Verification" "Guest" (Some (100 # 1)%Q)
                                       "EQ-1000-100" 1700000000000))
  ∧ track down "EQ-1000-100" one_order
    = (one_order, respond 500 (Failure "connection lost")).
Proof.
  split; [|split].
  - destruct (track_cases env0 "eq-1000-100" one_order) as (Hmiss & _).
    apply Hmiss; reflexivity.
  - destruct (track_cases env0 "EQ-1000-100" one_order) as (_ & Hfound & _).
    apply (Hfound (new_Order env0 (with_id "EQ-1000-100") "EQ-1000-100")); reflexivity.
  - destruct (track_cases down "EQ-1000-100" one_order) as (_ & _ & Hdown).
    apply Hdown. reflexivity.
Defined.

(** ** Session carts *)

(** C7: replacing the cart of a session writes the given items over whatever
    the session had (a cart is created when there was none) with [updatedAt]
    set to the time of the call, and a read right after it answers exactly
    those items; nothing of the old cart is merged in, and no other session
    and no order is touched. *)
Theorem cart_replace_then_get (env env' : Env) (sid : string) (its : list Json) (db : Db) :
  storeError env = None →
  storeError env' = None →
  (postCart env sid its db).2 = respond 200 Success
  ∧ (∃ c, carts (postCart env sid its db).1 !! sid = Some c
        ∧ cart_items c = its
        ∧ updatedAt c = now env
        ∧ getCart env' sid (postCart env sid its db).1
          = ((postCart env sid its db).1,
             respond 200 (CartBody (sessionId c) its (Some (now env))))
        ∧ (consistent db → sessionId c = sid))
  ∧ (∀ sid', sid' ≠ sid →
       carts (postCart env sid its db).1 !! sid' = carts db !! sid')
  ∧ orders (postCart env sid its db).1 = orders db.
Proof.
  intros Hup Hup'. unfold postCart, Cart_upsert.
  rewrite store_answers by done. simpl.
  split; [done|]. split; [|split; [|done]].
  - eexists. rewrite lookup_insert_eq. split; [reflexivity|].
    unfold getCart, Cart_findOne. rewrite store_answers by done. simpl.
    rewrite lookup_insert_eq.
    destruct (carts db !! sid) as [c0|] eqn:Hsid; simpl.
    + repeat split. intros [_ Hc]. by apply Hc.
    + done.
  - intros sid' Hne. by rewrite lookup_insert_ne.
Qed.

Lemma cart_replace_then_get_witness :
  (postCart env0 "sess-1" one_line with_cart).2 = respond 200 Success
  ∧ (∃ c, carts (postCart env0 "sess-1" one_line with_cart).1 !! "sess-1" = Some c
        ∧ cart_items c = one_line
        ∧ updatedAt c = now env0
        ∧ getCart env0 "sess-1" (postCart env0 "sess-1" one_line with_cart).1
          = ((postCart env0 "sess-1" one_line with_cart).1,
             respond 200 (CartBody (sessionId c) one_line (Some (now env0))))
        ∧ (consistent with_cart → sessionId c = "sess-1"))
  ∧ (∀ sid', sid' ≠ "sess-1" →
       carts (postCart env0 "sess-1" one_line with_cart).1 !! sid' = carts with_cart !! sid')
  ∧ orders (postCart env0 "sess-1" one_line with_cart).1 = orders with_cart.
Proof.
  apply (cart_replace_then_get env0 env0 "sess-1" one_line with_cart); reflexivity.
Defined.

(** C8: reading the cart of a session that has none stored answers 200 with
    the cart [{ sessionId, items: [] }], an empty item sequence, and leaves
    the store as it was; the missing cart is no error. *)
Theorem cart_get_missing (env : Env) (sid : string) (db : Db) :
  storeError env = None →
  carts db !! sid = None →
  getCart env sid db = (db, respond 200 (CartBody sid [] None)).
Proof.
  intros Hup Hmiss. unfold getCart, Cart_findOne.
  rewrite store_answers by done. simpl. by rewrite Hmiss.
Qed.

Lemma cart_get_missing_witness :
  getCart env0 "sess-2" with_cart = (with_cart, respond 200 (CartBody "sess-2" [] None)).
Proof. apply (cart_get_missing env0 "sess-2" with_cart); reflexivity. Defined.

(** A missing cart and a failing store are told apart: the only error the
    cart read can answer is the 500 of a rejected store call. *)
Lemma cart_get_error_only_from_store (env : Env) (sid : string) (db : Db) :
  code (getCart env sid db).2 ≠ 200 → storeError env ≠ None.
Proof.
  unfold getCart, Cart_findOne, store. intros Hcode Hup. rewrite Hup in Hcode.
  simpl in Hcode. by destruct (carts db !! sid).
Qed.

(** ** Admin login *)

Lemma truthy_nonempty (s : string) : truthy s = true ↔ s ≠ "".
Proof.
  unfold truthy. rewrite negb_true_iff. split.
  - intros Hneq ->. by rewrite String.eqb_refl in Hneq.
  - intros Hne. by apply String.eqb_neq.
Qed.

Lemma admin_login_code (env : Env) (p : string) :
  code (adminLogin env p) = 200 ↔ p = validPassword env.
Proof.
  unfold adminLogin. destruct (String.eqb_spec p (validPassword env)); simpl.
  - done.
  - split; [discriminate | done].
Qed.

(** C9: the admin login answers 200 with the token exactly when the submitted
    password is the same string as the configured secret (a non-empty
    [ADMIN_PASSWORD]), or as the built-in 'equineadmin123' when no secret is
    configured (the variable is unset or empty); every other password is
    answered 401 'Unauthorized', also one that is only a prefix of the secret
    or that equals it up to letter case. *)
Theorem admin_login_exact (env : Env) (p : string) :
  (code (adminLogin env p) = 200 →
     adminLogin env p = respond 200 (Token "secure_admin_session_active"))
  ∧ (code (adminLogin env p) ≠ 200 →
       adminLogin env p = respond 401 (Failure "Unauthorized"))
  ∧ (∀ secret, ADMIN_PASSWORD env = Some secret → secret ≠ "" →
       (code (adminLogin env p) = 200 ↔ p = secret))
  ∧ (ADMIN_PASSWORD env = None ∨ ADMIN_PASSWORD env = Some "" →
       (code (adminLogin env p) = 200 ↔ p = "equineadmin123"))
  ∧ (p ≠ validPassword env →
       String.prefix p (validPassword env) = true ∨ lower p = lower (validPassword env) →
       code (adminLogin env p) = 401).
Proof.
  split; [|split; [|split; [|split]]].
  - unfold adminLogin. by destruct (String.eqb p (validPassword env)).
  - unfold adminLogin. by destruct (String.eqb p (validPassword env)).
  - intros secret Hset Hne. rewrite admin_login_code. unfold validPassword.
    rewrite Hset. apply truthy_nonempty in Hne. by rewrite Hne.
  - intros Hunset. rewrite admin_login_code. unfold validPassword.
    by destruct Hunset as [-> | ->].
  - intros Hne _. unfold adminLogin.
    destruct (String.eqb_spec p (validPassword env)); [done|reflexivity].
Qed.

Lemma admin_login_exact_witness :
  adminLogin (with_secret "Stable#42") "Stable#42"
  = respond 200 (Token "secure_admin_session_active")
  ∧ adminLogin (with_secret "Stable#42") "stable#42" = respond 401 (Failure "Unauthorized")
  ∧ (code (adminLogin (with_secret "Stable#42") "Stable#42") = 200 ↔ "Stable#42" = "Stable#42")
  ∧ (code (adminLogin env0 "equineadmin123") = 200 ↔ "equineadmin123" = "equineadmin123")
  ∧ code (adminLogin (with_secret "Stable#42") "Stable") = 401
  ∧ code (adminLogin (with_secret "Stable#42") "STABLE#42") = 401.
Proof.
  split; [|split; [|split; [|split; [|split]]]].
  - destruct (admin_login_exact (with_secret "Stable#42") "Stable#42") as (Hok & _).
    apply Hok. reflexivity.
  - destruct (admin_login_exact (with_secret "Stable#42") "stable#42") as (_ & Hno & _).
    apply Hno. vm_compute. discriminate.
  - destruct (admin_login_exact (with_secret "Stable#42") "Stable#42") as (_ & _ & Hset & _).
    apply (Hset "Stable#42"); [reflexivity | discriminate].
  - destruct (admin_login_exact env0 "equineadmin123") as (_ & _ & _ & Hunset & _).
    apply Hunset. left. reflexivity.
  - destruct (admin_login_exact (with_secret "Stable#42") "Stable") as (_ & _ & _ & _ & Hnear).
    apply Hnear; [discriminate | left; reflexivity].
  - destruct (admin_login_exact (with_secret "Stable#42") "STABLE#42") as (_ & _ & _ & _ & Hnear).
    apply Hnear; [discriminate | right; reflexivity].
Defined.

(** ** Order creation *)

(** *** Bounds of the binary64 rounding *)

Lemma pow2_pos e : (0 < pow2 e)%Q.
Proof. apply Qpower_0_lt. reflexivity. Qed.

Lemma pow2_add a b : (pow2 (a + b) == pow2 a * pow2 b)%Q.
Proof. apply Qpower_plus. discriminate. Qed.

Lemma pow2_le a b : a <= b -> (pow2 a <= pow2 b)%Q.
Proof. intros H. apply Qpower_le_compat_l; [exact H | discriminate]. Qed.

Lemma pow2_lt a b : a < b -> (pow2 a < pow2 b)%Q.
Proof. intros H. apply Qpower_lt_compat_l; [exact H | reflexivity]. Qed.

Lemma pow2_lt_inv a b : (pow2 a < pow2 b)%Q -> a < b.
Proof. intros H. apply (Qpower_lt_compat_l_inv 2); [exact H | reflexivity]. Qed.

Lemma pow2_inject n : 0 <= n -> (pow2 n == inject_Z (2 ^ n))%Q.
Proof. intros H. unfold pow2. rewrite Zpower_Qpower by exact H. reflexivity. Qed.

(** [Qlog2] is the floor of the binary logarithm. *)
Lemma Qlog2_spec x : (0 < x)%Q -> (pow2 (Qlog2 x) <= x)%Q /\ (x < pow2 (Qlog2 x + 1))%Q.
Proof.
  intros Hx. destruct x as [p q]. unfold Qlog2. simpl Qnum. simpl Qden.
  assert (Hp : 0 < p) by (unfold Qlt in Hx; simpl in Hx; lia).
  set (a := Z.log2 p). set (b := Z.log2 (Z.pos q)).
  destruct (Z.log2_spec p Hp) as [Hpa Hpa'].
  destruct (Z.log2_spec (Z.pos q) eq_refl) as [Hqb Hqb'].
  fold a in Hpa, Hpa'. fold b in Hqb, Hqb'.
  assert (Ha : 0 <= a) by apply Z.log2_nonneg.
  assert (Hb : 0 <= b) by apply Z.log2_nonneg.
  assert (Hq : (p # q == inject_Z p / inject_Z (Z.pos q))%Q) by apply Qmake_Qdiv.
  assert (Hqpos : (0 < inject_Z (Z.pos q))%Q) by reflexivity.
  (* bounds in Q *)
  assert (Hpa_q : (pow2 a <= inject_Z p)%Q).
  { rewrite pow2_inject by exact Ha. rewrite <- Zle_Qle. exact Hpa. }
  assert (Hpa'_q : (inject_Z p < pow2 (a + 1))%Q).
  { rewrite pow2_inject by lia. rewrite <- Zlt_Qlt. replace (a + 1) with (Z.succ a) by lia. exact Hpa'. }
  assert (Hqb_q : (pow2 b <= inject_Z (Z.pos q))%Q).
  { rewrite pow2_inject by exact Hb. rewrite <- Zle_Qle. exact Hqb. }
  assert (Hqb'_q : (inject_Z (Z.pos q) < pow2 (b + 1))%Q).
  { rewrite pow2_inject by lia. rewrite <- Zlt_Qlt. replace (b + 1) with (Z.succ b) by lia. exact Hqb'. }
  assert (Hup : (p # q < pow2 (a - b + 1))%Q).
  { rewrite Hq. apply Qlt_shift_div_r; [exact Hqpos|].
    eapply Qlt_le_trans; [exact Hpa'_q|].
    replace (a + 1) with ((a - b + 1) + b) by lia. rewrite pow2_add.
    apply Qmult_le_l; [apply pow2_pos | exact Hqb_q]. }
  assert (Hlow : (pow2 (a - b - 1) < p # q)%Q).
  { rewrite Hq. apply Qlt_shift_div_l; [exact Hqpos|].
    eapply Qlt_le_trans; [|exact Hpa_q].
    replace a with ((a - b - 1) + (b + 1)) at 2 by lia. rewrite pow2_add.
    apply Qmult_lt_l; [apply pow2_pos | exact Hqb'_q]. }
  destruct (Qle_bool (pow2 (a - b)) (p # q)) eqn:Hle.
  - apply Qle_bool_iff in Hle. split; [exact Hle | exact Hup].
  - split.
    + apply Qlt_le_weak. exact Hlow.
    + replace (a - b - 1 + 1) with (a - b) by lia.
      apply Qnot_le_lt. intros Hc. apply Qle_bool_iff in Hc. congruence.
Qed.

Lemma Qlog2_lt x l : (0 < x)%Q -> (x < pow2 (l + 1))%Q -> Qlog2 x <= l.
Proof.
  intros Hx Hl. destruct (Qlog2_spec x Hx) as [Hlow _].
  assert (H : (pow2 (Qlog2 x) < pow2 (l + 1))%Q) by (eapply Qle_lt_trans; eassumption).
  apply pow2_lt_inv in H. lia.
Qed.

Lemma Qlog2_ge x l : (0 < x)%Q -> (pow2 l <= x)%Q -> l <= Qlog2 x.
Proof.
  intros Hx Hl. destruct (Qlog2_spec x Hx) as [_ Hup].
  assert (H : (pow2 l < pow2 (Qlog2 x + 1))%Q) by (eapply Qle_lt_trans; eassumption).
  apply pow2_lt_inv in H. lia.
Qed.

Lemma round_half_even_le x N : (x <= inject_Z N)%Q -> round_half_even x <= N.
Proof.
  intros Hx. unfold round_half_even.
  pose proof (Qfloor_le x) as Hf. pose proof (Qlt_floor x) as Hf'.
  assert (Hfn : Qfloor x <= N).
  { rewrite <- (Qfloor_Z N). apply Qfloor_resp_le. exact Hx. }
  destruct (Z.eq_dec (Qfloor x) N) as [Heq | Hne].
  - destruct (Qcompare_spec (x - inject_Z (Qfloor x)) (1 # 2)) as [Hc|Hc|Hc];
      rewrite Heq in Hc; [lra | lia | lra].
  - destruct (x - inject_Z (Qfloor x) ?= 1 # 2)%Q; [destruct (Z.even _)|..]; lia.
Qed.

Lemma round_half_even_ge x N : (inject_Z N <= x)%Q -> N <= round_half_even x.
Proof.
  intros Hx. unfold round_half_even.
  assert (Hfn : N <= Qfloor x).
  { rewrite <- (Qfloor_Z N). apply Qfloor_resp_le. exact Hx. }
  destruct (x - inject_Z (Qfloor x) ?= 1 # 2)%Q; [destruct (Z.even _)|..]; lia.
Qed.

Lemma round_half_even_below_half x N :
  (x < inject_Z N + (1 # 2))%Q -> round_half_even x <= N.
Proof.
  intros Hx. unfold round_half_even.
  pose proof (Qfloor_le x) as Hf.
  assert (Hfn : Qfloor x <= N).
  { assert (H : (inject_Z (Qfloor x) < inject_Z (N + 1))%Q).
    { rewrite inject_Z_plus. change (inject_Z 1) with 1%Q. lra. }
    rewrite <- Zlt_Qlt in H. lia. }
  destruct (Z.eq_dec (Qfloor x) N) as [Heq | Hne].
  - destruct (Qcompare_spec (x - inject_Z (Qfloor x)) (1 # 2)) as [Hc|Hc|Hc];
      rewrite Heq in Hc; [lra | lia | lra].
  - destruct (x - inject_Z (Qfloor x) ?= 1 # 2)%Q; [destruct (Z.even _)|..]; lia.
Qed.

(** A multiple of [2^e'] is a multiple of [2^e] for every [e <= e']. *)
Lemma multiple_at e e' K :
  e <= e' -> (inject_Z K * pow2 e' == inject_Z (K * 2 ^ (e' - e)) * pow2 e)%Q.
Proof.
  intros He. rewrite inject_Z_mult, <- pow2_inject by lia.
  rewrite <- Qmult_assoc, <- pow2_add. replace (e' - e + e) with e' by lia. reflexivity.
Qed.

Lemma div_pow2_le x y e : (x <= y * pow2 e)%Q -> (x / pow2 e <= y)%Q.
Proof. intros H. apply Qle_shift_div_r; [apply pow2_pos | exact H]. Qed.

Lemma div_pow2_ge x y e : (y * pow2 e <= x)%Q -> (y <= x / pow2 e)%Q.
Proof. intros H. apply Qle_shift_div_l; [apply pow2_pos | exact H]. Qed.

Lemma div_pow2_lt x y e : (x < y * pow2 e)%Q -> (x / pow2 e < y)%Q.
Proof. intros H. apply Qlt_shift_div_r; [apply pow2_pos | exact H]. Qed.

Lemma round64_pos_le x K e' :
  ulp_exponent x <= e' ->
  (x <= inject_Z K * pow2 e')%Q ->
  (round64_pos x <= inject_Z K * pow2 e')%Q.
Proof.
  intros He Hx. rewrite (multiple_at _ _ K He) in *. unfold round64_pos.
  apply Qmult_le_compat_r; [|apply Qlt_le_weak, pow2_pos].
  rewrite <- Zle_Qle. apply round_half_even_le. apply div_pow2_le. exact Hx.
Qed.

Lemma round64_pos_ge x K e' :
  ulp_exponent x <= e' ->
  (inject_Z K * pow2 e' <= x)%Q ->
  (inject_Z K * pow2 e' <= round64_pos x)%Q.
Proof.
  intros He Hx. rewrite (multiple_at _ _ K He) in *. unfold round64_pos.
  apply Qmult_le_compat_r; [|apply Qlt_le_weak, pow2_pos].
  rewrite <- Zle_Qle. apply round_half_even_ge. apply div_pow2_ge. exact Hx.
Qed.

Lemma round64_pos_below_half x K :
  (x < (inject_Z K + (1 # 2)) * pow2 (ulp_exponent x))%Q ->
  (round64_pos x <= inject_Z K * pow2 (ulp_exponent x))%Q.
Proof.
  intros Hx. unfold round64_pos.
  apply Qmult_le_compat_r; [|apply Qlt_le_weak, pow2_pos].
  rewrite <- Zle_Qle. apply round_half_even_below_half. apply div_pow2_lt. exact Hx.
Qed.

Lemma round64_positive x : (0 < x)%Q -> round64 x = round64_pos x.
Proof.
  intros H. unfold round64. destruct (Qcompare_spec x 0) as [Hc|Hc|Hc]; [lra | lra | reflexivity].
Qed.

Lemma round64_zero x : (x == 0)%Q -> round64 x = 0%Q.
Proof.
  intros H. unfold round64. destruct (Qcompare_spec x 0) as [Hc|Hc|Hc]; [reflexivity | lra | lra].
Qed.

Lemma pow2_0 : (pow2 0 == 1)%Q.
Proof. reflexivity. Qed.

Lemma pow2_double e : (pow2 (e - 1) * 2 == pow2 e)%Q.
Proof.
  replace e with ((e - 1) + 1) at 2 by lia. rewrite pow2_add. reflexivity.
Qed.

Lemma pow2_le_1 e : e <= 0 -> (pow2 e <= 1)%Q.
Proof. intros H. rewrite <- pow2_0. apply pow2_le. exact H. Qed.

(** The binary64 number just below the integer [n], for [n] in [[2^a, 2^(a+1)]]. *)
Lemma just_below n a :
  0 <= a <= 52 ->
  (inject_Z (n * 2 ^ (52 - a) - 1) * pow2 (a - 52) == inject_Z n - pow2 (a - 52))%Q.
Proof.
  intros Ha. unfold Zminus at 1. rewrite inject_Z_plus, inject_Z_mult.
  rewrite <- (pow2_inject (52 - a)) by lia.
  assert (H : (pow2 (52 - a) * pow2 (a - 52) == 1)%Q).
  { rewrite <- pow2_add. replace (52 - a + (a - 52)) with 0 by lia. reflexivity. }
  change (inject_Z (- (1))) with (- (1))%Q.
  setoid_replace ((inject_Z n * pow2 (52 - a) + - (1)) * pow2 (a - 52))%Q
    with (inject_Z n * (pow2 (52 - a) * pow2 (a - 52)) - pow2 (a - 52))%Q using relation Qeq by ring.
  rewrite H. ring.
Qed.

Lemma ulp_exponent_le x l :
  (0 < x)%Q -> (x < pow2 (l + 1))%Q -> -1022 <= l -> ulp_exponent x <= l - 52.
Proof.
  intros Hx Hl Hmin. pose proof (Qlog2_lt x l Hx Hl). unfold ulp_exponent. lia.
Qed.

Lemma ulp_exponent_eq x l :
  (pow2 l <= x)%Q -> (x < pow2 (l + 1))%Q -> -1022 <= l -> ulp_exponent x = l - 52.
Proof.
  intros Hlow Hup Hmin.
  assert (Hx : (0 < x)%Q) by (eapply Qlt_le_trans; [apply (pow2_pos l) | exact Hlow]).
  pose proof (Qlog2_lt x l Hx Hup). pose proof (Qlog2_ge x l Hx Hlow).
  unfold ulp_exponent. lia.
Qed.


(** The product [r * w] in binary64, for a draw [r] and an integer [w] above [2^a]. *)
Lemma fmul_draw_range (w a : Z) (r : Q) :
  0 <= a <= 52 -> 2 ^ a < w -> w < 2 ^ (a + 1) ->
  (0 <= r)%Q -> (r <= 1 - pow2 (-53))%Q ->
  (0 <= fmul r (inject_Z w))%Q /\ (fmul r (inject_Z w) <= inject_Z w - pow2 (a - 52))%Q.
Proof.
  intros Ha Hlow Hup Hr0 Hr1. unfold fmul.
  assert (Hw : (0 < inject_Z w)%Q).
  { change 0%Q with (inject_Z 0). rewrite <- Zlt_Qlt. pose proof (Z.pow_pos_nonneg 2 a). lia. }
  assert (H53 : (0 < pow2 (-53))%Q) by apply pow2_pos.
  assert (Hulp1 : (pow2 (a - 52) <= 1)%Q) by (apply pow2_le_1; lia).
  assert (Hwa : (pow2 a < inject_Z w)%Q) by (rewrite pow2_inject by lia; rewrite <- Zlt_Qlt; lia).
  assert (Hwa' : (inject_Z w < pow2 (a + 1))%Q) by (rewrite pow2_inject by lia; rewrite <- Zlt_Qlt; lia).
  assert (Hw1 : (pow2 a + 1 <= inject_Z w)%Q).
  { rewrite pow2_inject by lia. change 1%Q with (inject_Z 1). rewrite <- inject_Z_plus, <- Zle_Qle. lia. }
  set (x := (r * inject_Z w)%Q).
  assert (Hx0 : (0 <= x)%Q) by (apply Qmult_le_0_compat; [exact Hr0 | apply Qlt_le_weak, Hw]).
  assert (Hxw : (x <= inject_Z w - pow2 (-53) * inject_Z w)%Q).
  { unfold x. setoid_replace (inject_Z w - pow2 (-53) * inject_Z w)%Q
      with ((1 - pow2 (-53)) * inject_Z w)%Q using relation Qeq by ring.
    apply Qmult_le_compat_r; [exact Hr1 | apply Qlt_le_weak, Hw]. }
  assert (Hhalf : (pow2 (a - 53) < pow2 (-53) * inject_Z w)%Q).
  { replace (a - 53) with (-53 + a) by lia. rewrite pow2_add.
    apply Qmult_lt_l; [exact H53 | exact Hwa]. }
  assert (Hpos53 : (0 < pow2 (a - 53))%Q) by apply pow2_pos.
  assert (Hpa : (0 < pow2 a)%Q) by apply pow2_pos.
  destruct (Qlt_le_dec 0 x) as [Hxpos | Hxzero].
  - rewrite (round64_positive x Hxpos). split.
    + setoid_replace 0%Q with (inject_Z 0 * pow2 (ulp_exponent x))%Q using relation Qeq by ring.
      apply round64_pos_ge; [lia|]. change (inject_Z 0) with 0%Q. lra.
    + destruct (Qlt_le_dec x (pow2 a)) as [Hsmall | Hbig].
      * apply Qle_trans with (inject_Z 1 * pow2 a)%Q.
        -- apply round64_pos_le.
           ++ assert (Hs : (x < pow2 (a - 1 + 1))%Q)
                by (replace (a - 1 + 1) with a by lia; exact Hsmall).
              pose proof (ulp_exponent_le x (a - 1) Hxpos Hs). lia.
           ++ change (inject_Z 1) with 1%Q. lra.
        -- change (inject_Z 1) with 1%Q. lra.
      * assert (Hxup : (x < pow2 (a + 1))%Q) by lra.
        pose proof (ulp_exponent_eq x a Hbig Hxup ltac:(lia)) as He.
        rewrite <- (just_below w a Ha). rewrite <- He.
        apply round64_pos_below_half. rewrite He.
        setoid_replace ((inject_Z (w * 2 ^ (52 - a) - 1) + (1 # 2)) * pow2 (a - 52))%Q
          with (inject_Z (w * 2 ^ (52 - a) - 1) * pow2 (a - 52) + pow2 (a - 52) * (1 # 2))%Q
          using relation Qeq by ring.
        rewrite (just_below w a Ha).
        pose proof (pow2_double (a - 52)) as Hd. replace (a - 52 - 1) with (a - 53) in Hd by lia.
        lra.
  - assert (Hz : (x == 0)%Q) by lra.
    rewrite (round64_zero x Hz). split; [lra|]. lra.
Qed.

(** [Math.floor(lo + r * w)] in binary64. *)
Lemma floor_range64 (lo w a : Z) (r : Q) :
  0 < lo -> 0 <= a <= 52 -> 2 ^ a < w -> lo + w <= 2 ^ (a + 1) ->
  (0 <= r)%Q -> (r <= 1 - pow2 (-53))%Q ->
  lo <= Qfloor (fadd (inject_Z lo) (fmul r (inject_Z w))) <= lo + w - 1.
Proof.
  intros Hlo Ha Hlow Hup Hr0 Hr1.
  destruct (fmul_draw_range w a r Ha Hlow ltac:(lia) Hr0 Hr1) as [Hp0 Hp1].
  set (p := fmul r (inject_Z w)) in *. unfold fadd.
  set (y := (inject_Z lo + p)%Q).
  assert (Hloq : (0 < inject_Z lo)%Q) by (change 0%Q with (inject_Z 0); rewrite <- Zlt_Qlt; lia).
  assert (Hulp : (0 < pow2 (a - 52))%Q) by apply pow2_pos.
  assert (Hy0 : (0 < y)%Q) by (unfold y; lra).
  assert (Hylo : (inject_Z lo <= y)%Q) by (unfold y; lra).
  assert (Hyup : (y <= inject_Z (lo + w) - pow2 (a - 52))%Q)
    by (unfold y; rewrite inject_Z_plus; lra).
  assert (Htop : (inject_Z (lo + w) <= pow2 (a + 1))%Q)
    by (rewrite pow2_inject by lia; rewrite <- Zle_Qle; lia).
  assert (He : ulp_exponent y <= a - 52)
    by (apply ulp_exponent_le; [exact Hy0 | lra | lia]).
  rewrite (round64_positive y Hy0).
  assert (Hs_up : (round64_pos y <= inject_Z (lo + w) - pow2 (a - 52))%Q).
  { rewrite <- (just_below (lo + w) a Ha). apply round64_pos_le; [exact He|].
    rewrite (just_below (lo + w) a Ha). exact Hyup. }
  assert (Hs_lo : (inject_Z lo <= round64_pos y)%Q).
  { setoid_replace (inject_Z lo) with (inject_Z lo * pow2 0)%Q using relation Qeq by (rewrite pow2_0; ring).
    apply round64_pos_ge; [lia|]. rewrite pow2_0. lra. }
  split.
  - rewrite <- (Qfloor_Z lo) at 1. apply Qfloor_resp_le. exact Hs_lo.
  - cut (Qfloor (round64_pos y) < lo + w); [lia|].
    rewrite Zlt_Qlt. eapply Qle_lt_trans; [apply Qfloor_le|]. lra.
Qed.

Lemma double_below_one r :
  is_double r = true -> (0 <= r)%Q -> (r < 1)%Q -> (r <= 1 - pow2 (-53))%Q.
Proof.
  intros Hd Hr0 Hr1. apply Qeq_bool_iff in Hd.
  assert (H53 : (pow2 (-53) == 1 # 9007199254740992)%Q) by reflexivity.
  destruct (Qlt_le_dec r (1 # 2)) as [Hsmall | Hbig]; [lra|].
  assert (Hpos : (0 < r)%Q) by lra.
  rewrite (round64_positive r Hpos) in Hd.
  assert (He : ulp_exponent r = -1 - 52).
  { apply ulp_exponent_eq; [exact Hbig | exact Hr1 | lia]. }
  unfold round64_pos in Hd. rewrite He in Hd. simpl Z.sub in Hd.
  set (M := round_half_even (r / pow2 (-53))) in Hd.
  assert (Hd' : (inject_Z M * (1 # 9007199254740992) == r)%Q).
  { eapply Qeq_trans; [|exact Hd]. apply Qmult_comp; [reflexivity | symmetry; exact H53]. }
  assert (HM : M < 2 ^ 53).
  { rewrite Zlt_Qlt. change (inject_Z (2 ^ 53)) with 9007199254740992%Q. lra. }
  assert (HM' : (inject_Z M <= inject_Z (2 ^ 53 - 1))%Q) by (rewrite <- Zle_Qle; lia).
  change (inject_Z (2 ^ 53 - 1)) with 9007199254740991%Q in HM'.
  lra.
Qed.

(** [Math.floor(lo + Math.random() * w)], computed in binary64, lies in
    [[lo, lo + w - 1]] when [w] and [lo + w] lie between the same two powers
    of two (as 9000 and 10000 do, and 900 and 1000). *)
Lemma floor_range (lo w a : Z) (r : Q) :
  0 < lo → 0 ≤ a ≤ 52 → 2 ^ a < w → lo + w ≤ 2 ^ (a + 1) →
  random_draw r →
  lo ≤ Math_floor (fadd (inject_Z lo) (fmul r (inject_Z w))) ≤ lo + w - 1.
Proof.
  intros Hlo Ha Hw Htop [Hd [Hr0 Hr1]]. unfold Math_floor.
  apply (floor_range64 lo w a r Hlo Ha Hw Htop Hr0).
  by apply double_below_one.
Qed.

(** The samples agree with the binary64 arithmetic of [SpecFloat]. *)
Example binary64_agrees_on_samples :
  forallb (agrees_with_SpecFloat 1000 9000) sample_draws = true
  ∧ forallb (agrees_with_SpecFloat 100 900) sample_draws = true.
Proof. split; vm_compute; reflexivity. Qed.

(** Two draws at which rounding the product changes the reference. *)
Example crossing_draws_reference : randomRef crossing_draws = "EQ-1248-224".
Proof. vm_compute. reflexivity. Qed.

(** Decimal printing of the two ranges, checked number by number. *)
Lemma four_digits (a : Z) : 1000 ≤ a ≤ 9999 → is_group4 (pretty a) = true.
Proof.
  intros Ha.
  assert (Hall : forallb (λ a, is_group4 (pretty a)) (seqZ 1000 9000) = true)
    by (vm_compute; reflexivity).
  rewrite forallb_forall in Hall. apply Hall.
  apply list_elem_of_In, elem_of_seqZ. lia.
Qed.

Lemma three_digits (b : Z) : 100 ≤ b ≤ 999 → is_group3 (pretty b) = true.
Proof.
  intros Hb.
  assert (Hall : forallb (λ b, is_group3 (pretty b)) (seqZ 100 900) = true)
    by (vm_compute; reflexivity).
  rewrite forallb_forall in Hall. apply Hall.
  apply list_elem_of_In, elem_of_seqZ. lia.
Qed.

Lemma generated_format_groups (s4 s3 : string) :
  is_group4 s4 = true →
  is_group3 s3 = true →
  is_generated_format ((("EQ-" +:+ s4) +:+ "-") +:+ s3) = true
  ∧ (("EQ-" +:+ s4) +:+ "-") +:+ s3 = "EQ-" +:+ s4 +:+ "-" +:+ s3.
Proof.
  intros H4 H3.
  destruct s4 as [|a1 [|a2 [|a3 [|a4 [|]]]]]; try discriminate.
  split; [|reflexivity].
  change (is_group4 (String a1 (String a2 (String a3 (String a4 EmptyString))))
          && is_group3 s3 = true).
  by rewrite H4, H3.
Qed.

Lemma randomRef_format (env : Env) :
  random_draw (random1 env) →
  random_draw (random2 env) →
  ∃ a b : Z,
    1000 ≤ a ≤ 9999 ∧ 100 ≤ b ≤ 999
    ∧ randomRef env = "EQ-" +:+ pretty a +:+ "-" +:+ pretty b
    ∧ is_generated_format (randomRef env) = true.
Proof.
  intros Hr1 Hr2.
  pose proof (floor_range 1000 9000 13 _ eq_refl ltac:(lia) eq_refl ltac:(lia) Hr1) as Ha.
  pose proof (floor_range 100 900 9 _ eq_refl ltac:(lia) eq_refl ltac:(lia) Hr2) as Hb.
  exists (Math_floor (fadd 1000 (fmul (random1 env) 9000))),
         (Math_floor (fadd 100 (fmul (random2 env) 900))).
  split; [exact Ha|]. split; [exact Hb|].
  destruct (generated_format_groups _ _ (four_digits _ Ha) (three_digits _ Hb))
    as [Hfmt Heq].
  split; [exact Heq | exact Hfmt].
Qed.

Lemma save_fresh (env : Env) (doc : Order) (db : Db) :
  storeError env = None →
  orders db !! orderId doc = None →
  Order_save env doc db
  = (with_orders (<[orderId doc := doc]> (orders db)) db, Resolved doc).
Proof.
  intros Hup Hfresh. unfold Order_save.
  rewrite store_answers by done. by rewrite Hfresh.
Qed.

(** C4, as stated, fails: when the generated reference is already the id of
    a stored order the write is rejected by the unique index; the answer is
    500, nothing is persisted, and the order found under that id is the old
    one. *)
Lemma create_collision_is_rejected :
  od_orderId empty_order = None
  ∧ randomRef env0 = "EQ-1000-100"
  ∧ postOrder env0 empty_order one_order
    = (one_order, respond 500 (Failure "E11000 duplicate key error"))
  ∧ orders one_order !! "EQ-1000-100"
    ≠ Some (new_Order env0 empty_order "EQ-1000-100").
Proof.
  split; [reflexivity|]. split; [reflexivity|]. split; [reflexivity|].
  vm_compute. discriminate.
Qed.

(** C4, amended: for every order payload without an orderId, Create
    generates the id 'EQ-' + a + '-' + b with a in [1000,9999] and b in
    [100,999]; when no stored order has that id already (and the store takes
    the write) it persists the new order, answers 201 with the created record
    and that id, and the order is then found under that id by the tracking
    lookup. *)
Theorem create_generates_reference (env : Env) (d : OrderData) (db : Db) :
  random_draw (random1 env) →
  random_draw (random2 env) →
  od_orderId d = None →
  storeError env = None →
  orders db !! randomRef env = None →
  ∃ (a b : Z) (o : Order),
    1000 ≤ a ≤ 9999 ∧ 100 ≤ b ≤ 999
    ∧ orderId o = "EQ-" +:+ pretty a +:+ "-" +:+ pretty b
    ∧ is_generated_format (orderId o) = true
    ∧ postOrder env d db
      = (with_orders (<[orderId o := o]> (orders db)) db,
         respond 201 (Created (orderId o) o))
    ∧ orders (postOrder env d db).1 !! orderId o = Some o
    ∧ (∀ env', storeError env' = None →
         track env' (orderId o) (postOrder env d db).1
         = ((postOrder env d db).1,
            respond 200 (Tracked (status o) (name (customer o)) (total o)
                                 (orderId o) (createdAt o)))).
Proof.
  intros Hr1 Hr2 Hnone Hup Hfresh.
  destruct (randomRef_format env Hr1 Hr2) as (a & b & Ha & Hb & Heq & Hfmt).
  exists a, b, (new_Order env d (randomRef env)).
  assert (Hpost : postOrder env d db
                  = (with_orders (<[randomRef env := new_Order env d (randomRef env)]>
                                    (orders db)) db,
                     respond 201 (Created (randomRef env)
                                    (new_Order env d (randomRef env))))).
  { unfold postOrder, assignedId. rewrite Hnone.
    by rewrite save_fresh. }
  rewrite Hpost. simpl.
  repeat split; try done; try lia.
  - by rewrite lookup_insert_eq.
  - intros env' Hup'. unfold track, Order_findOne.
    rewrite store_answers by done. simpl. by rewrite lookup_insert_eq.
Qed.

Lemma create_generates_reference_witness :
  ∃ (a b : Z) (o : Order),
    1000 ≤ a ≤ 9999 ∧ 100 ≤ b ≤ 999
    ∧ orderId o = "EQ-" +:+ pretty a +:+ "-" +:+ pretty b
    ∧ is_generated_format (orderId o) = true
    ∧ postOrder half_draws empty_order one_order
      = (with_orders (<[orderId o := o]> (orders one_order)) one_order,
         respond 201 (Created (orderId o) o))
    ∧ orders (postOrder half_draws empty_order one_order).1 !! orderId o = Some o
    ∧ (∀ env', storeError env' = None →
         track env' (orderId o) (postOrder half_draws empty_order one_order).1
         = ((postOrder half_draws empty_order one_order).1,
            respond 200 (Tracked (status o) (name (customer o)) (total o)
                                 (orderId o) (createdAt o)))).
Proof.
  apply (create_generates_reference half_draws empty_order one_order).
  - split; [reflexivity | split; simpl; lra].
  - split; [reflexivity | split; simpl; lra].
  - reflexivity.
  - reflexivity.
  - reflexivity.
Defined.

Example half_draws_reference : randomRef half_draws = "EQ-5500-775".
Proof. reflexivity. Qed.

(** C10, as stated, fails twice: an orderId that is the empty string is
    replaced by a generated one, and an orderId that a stored order already
    has is rejected by the unique index. *)
Lemma create_supplied_id_not_always_kept :
  (od_orderId (with_id "") = Some ""
   ∧ (∃ o, (postOrder env0 (with_id "") empty_db).2
           = respond 201 (Created "EQ-1000-100" o))
   ∧ orders (postOrder env0 (with_id "") empty_db).1 !! "" = None)
  ∧ (od_orderId (with_id "EQ-1000-100") = Some "EQ-1000-100"
     ∧ postOrder env0 (with_id "EQ-1000-100") one_order
       = (one_order, respond 500 (Failure "E11000 duplicate key error"))).
Proof.
  split; [split; [reflexivity | split; [eexists; reflexivity | reflexivity]]|].
  split; reflexivity.
Qed.

(** C10, amended: for every order payload whose orderId is a non-empty
    string that no stored order has yet, Create persists the order under that
    exact string, whatever its format (no check against the EQ- format is
    made), and the orderId of the response is the supplied value; this when
    the store takes the write. *)
Theorem create_keeps_supplied_id (env : Env) (d : OrderData) (db : Db) (id : string) :
  od_orderId d = Some id →
  id ≠ "" →
  storeError env = None →
  orders db !! id = None →
  ∃ o, postOrder env d db
       = (with_orders (<[id := o]> (orders db)) db, respond 201 (Created id o))
     ∧ orderId o = id
     ∧ orders (postOrder env d db).1 !! id = Some o.
Proof.
  intros Hid Hne Hup Hfresh. exists (new_Order env d id).
  assert (Hpost : postOrder env d db
                  = (with_orders (<[id := new_Order env d id]> (orders db)) db,
                     respond 201 (Created id (new_Order env d id)))).
  { unfold postOrder, assignedId. rewrite Hid.
    apply truthy_nonempty in Hne. rewrite Hne.
    by rewrite save_fresh. }
  rewrite Hpost. simpl. by rewrite lookup_insert_eq.
Qed.

Lemma create_keeps_supplied_id_witness :
  is_generated_format "order no. 7" = false
  ∧ ∃ o, postOrder env0 (with_id "order no. 7") one_order
         = (with_orders (<["order no. 7" := o]> (orders one_order)) one_order,
            respond 201 (Created "order no. 7" o))
       ∧ orderId o = "order no. 7"
       ∧ orders (postOrder env0 (with_id "order no. 7") one_order).1 !! "order no. 7" = Some o.
Proof.
  split; [reflexivity|].
  apply (create_keeps_supplied_id env0 (with_id "order no. 7") one_order "order no. 7").
  - reflexivity.
  - discriminate.
  - reflexivity.
  - reflexivity.
Defined.

(** ** What the updates leave alone *)

Lemma same_refl (o : Order) : same_but_status_and_receipt o o.
Proof. by repeat split. Qed.

Lemma same_trans (o1 o2 o3 : Order) :
  same_but_status_and_receipt o1 o2 →
  same_but_status_and_receipt o2 o3 →
  same_but_status_and_receipt o1 o3.
Proof.
  unfold same_but_status_and_receipt.
  intros (?&?&?&?&?&?&?&?&?) (?&?&?&?&?&?&?&?&?).
  repeat split; congruence.
Qed.

Lemma set_status_same (s : string) (o : Order) : same_but_status o (set_status s o).
Proof. by repeat split. Qed.

Lemma set_receipt_same (url : string) (o : Order) :
  same_but_status_and_receipt o (set_receipt url o).
Proof. by repeat split. Qed.

Lemma putStatus_db (env : Env) (id s : string) (db : Db) :
  (putStatus env id s db).1 = (Order_findOneAndUpdate env id (set_status s) db).1.
Proof.
  unfold putStatus.
  by destruct (Order_findOneAndUpdate env id (set_status s) db) as [? []].
Qed.

Lemma uploadReceipt_db (env : Env) (id protocol host f : string) (db : Db) :
  (uploadReceipt env id protocol host (Some f) db).1
  = (Order_findOneAndUpdate env id (set_receipt (fileUrl protocol host f)) db).1.
Proof.
  unfold uploadReceipt.
  by destruct (Order_findOneAndUpdate env id (set_receipt (fileUrl protocol host f)) db)
    as [? []].
Qed.

Lemma putStatus_frame (env : Env) (id s : string) (db : Db) (k : string) (o : Order) :
  orders db !! k = Some o →
  ∃ o', orders (putStatus env id s db).1 !! k = Some o'
      ∧ same_but_status o o'
      ∧ (k ≠ id → o' = o).
Proof.
  intros Hk. rewrite putStatus_db, (findOneAndUpdate_lookup _ _ _ _ _ o) by done.
  eexists. split; [reflexivity|].
  case_decide; [|by repeat split].
  split; [|done]. destruct (storeError env); [by repeat split | apply set_status_same].
Qed.

Lemma uploadReceipt_frame (env : Env) (id protocol host : string) (file : option string)
    (db : Db) (k : string) (o : Order) :
  orders db !! k = Some o →
  ∃ o', orders (uploadReceipt env id protocol host file db).1 !! k = Some o'
      ∧ same_but_status_and_receipt o o'
      ∧ (k ≠ id → o' = o).
Proof.
  intros Hk. destruct file as [f|]; [|exists o; by repeat split].
  rewrite uploadReceipt_db, (findOneAndUpdate_lookup _ _ _ _ _ o) by done.
  eexists. split; [reflexivity|].
  case_decide; [|by repeat split].
  split; [|done]. destruct (storeError env); [apply same_refl | apply set_receipt_same].
Qed.

(** No route removes an order or rewrites anything but its status and
    receipt. *)
Lemma handle_keeps_orders (env : Env) (r : Request) (db : Db) (k : string) (o : Order) :
  orders db !! k = Some o →
  ∃ o', orders (handle env r db).1 !! k = Some o' ∧ same_but_status_and_receipt o o'.
Proof.
  intros Hk.
  destruct r as [sid|sid its|sid|p|d|id pr h file| |id s|id]; simpl.
  - exists o. split; [|apply same_refl].
    unfold getCart, Cart_findOne, store. by destruct (storeError env).
  - exists o. split; [|apply same_refl].
    unfold postCart, Cart_upsert, store. by destruct (storeError env).
  - exists o. split; [|apply same_refl].
    unfold deleteCart, Cart_deleteOne, store. by destruct (storeError env).
  - exists o. split; [done | apply same_refl].
  - exists o. split; [|apply same_refl].
    unfold postOrder, Order_save, store.
    destruct (storeError env); simpl; [done|].
    destruct (orders db !! assignedId env d) eqn:Hid; simpl; [done|].
    rewrite lookup_insert_ne; [done | congruence].
  - destruct (uploadReceipt_frame env id pr h file db k o Hk) as (o' & Ho' & Hsame & _).
    by exists o'.
  - exists o. split; [|apply same_refl].
    unfold adminOrders, Order_find_sorted, store. by destruct (storeError env).
  - destruct (putStatus_frame env id s db k o Hk) as (o' & Ho' & [Hsame _] & _).
    by exists o'.
  - exists o. split; [|apply same_refl].
    unfold track, Order_findOne, store. by destruct (storeError env).
Qed.

Lemma serve_keeps_orders (rs : list (Env * Request)) (db : Db) (k : string) (o : Order) :
  orders db !! k = Some o →
  ∃ o', orders (serve rs db) !! k = Some o' ∧ same_but_status_and_receipt o o'.
Proof.
  revert db o. induction rs as [|[env r] rs IH]; intros db o Hk; simpl.
  - exists o. split; [done | apply same_refl].
  - destruct (handle_keeps_orders env r db k o Hk) as (o1 & Hk1 & Hsame1).
    destruct (IH _ _ Hk1) as (o2 & Hk2 & Hsame2).
    exists o2. split; [done|]. by eapply same_trans.
Qed.

(** C5: an order that is in the store stays in the store under its id
    through every sequence of requests (status updates and receipt uploads
    among them), with its orderId, createdAt and every field other than
    status and receiptImg as they were: no route deletes an order.  A status
    update changes at most the status of the order it names, a receipt upload
    at most the receiptImg and status of the order it names; every other
    order, and the carts, are left as they were. *)
Theorem orders_only_updated :
  (∀ (rs : list (Env * Request)) (db : Db) (k : string) (o : Order),
     orders db !! k = Some o →
     ∃ o', orders (serve rs db) !! k = Some o'
         ∧ orderId o' = orderId o
         ∧ createdAt o' = createdAt o
         ∧ same_but_status_and_receipt o o')
  ∧ (∀ (env : Env) (id s : string) (db : Db) (k : string) (o : Order),
       orders db !! k = Some o →
       ∃ o', orders (putStatus env id s db).1 !! k = Some o'
           ∧ same_but_status o o'
           ∧ (k ≠ id → o' = o))
  ∧ (∀ (env : Env) (id protocol host : string) (file : option string) (db : Db)
       (k : string) (o : Order),
       orders db !! k = Some o →
       ∃ o', orders (uploadReceipt env id protocol host file db).1 !! k = Some o'
           ∧ same_but_status_and_receipt o o'
           ∧ (k ≠ id → o' = o))
  ∧ (∀ (env : Env) (id s : string) (db : Db),
       carts (putStatus env id s db).1 = carts db)
  ∧ (∀ (env : Env) (id protocol host : string) (file : option string) (db : Db),
       carts (uploadReceipt env id protocol host file db).1 = carts db).
Proof.
  split; [|split; [|split; [|split]]].
  - intros rs db k o Hk.
    destruct (serve_keeps_orders rs db k o Hk) as (o' & Hk' & Hsame).
    exists o'. split; [done|]. split; [apply Hsame|]. split; [apply Hsame | done].
  - apply putStatus_frame.
  - apply uploadReceipt_frame.
  - intros env id s db. by rewrite putStatus_db, findOneAndUpdate_carts.
  - intros env id protocol host [f|] db; [|done].
    by rewrite uploadReceipt_db, findOneAndUpdate_carts.
Qed.

Lemma orders_only_updated_witness :
  (∃ o', orders (serve busy_day one_order) !! "EQ-1000-100" = Some o'
       ∧ orderId o' = "EQ-1000-100"
       ∧ createdAt o' = 1700000000000
       ∧ same_but_status_and_receipt
           (new_Order env0 (with_id "EQ-1000-100") "EQ-1000-100") o')
  ∧ (∃ o', orders (putStatus env0 "EQ-2000-200" "Shipped" one_order).1 !! "EQ-1000-100"
           = Some o'
         ∧ same_but_status (new_Order env0 (with_id "EQ-1000-100") "EQ-1000-100") o'
         ∧ ("EQ-1000-100" ≠ "EQ-2000-200" →
            o' = new_Order env0 (with_id "EQ-1000-100") "EQ-1000-100"))
  ∧ (∃ o', orders (uploadReceipt env0 "EQ-1000-100" "https" "shop.example"
                     (Some "receipt-1.jpg") one_order).1 !! "EQ-1000-100" = Some o'
         ∧ same_but_status_and_receipt
             (new_Order env0 (with_id "EQ-1000-100") "EQ-1000-100") o'
         ∧ ("EQ-1000-100" ≠ "EQ-1000-100" →
            o' = new_Order env0 (with_id "EQ-1000-100") "EQ-1000-100")).
Proof.
  destruct orders_only_updated as (Hserve & Hput & Hupload & _).
  split; [|split].
  - apply (Hserve busy_day one_order "EQ-1000-100"
             (new_Order env0 (with_id "EQ-1000-100") "EQ-1000-100")).
    reflexivity.
  - apply (Hput env0 "EQ-2000-200" "Shipped" one_order "EQ-1000-100"
             (new_Order env0 (with_id "EQ-1000-100") "EQ-1000-100")).
    reflexivity.
  - apply (Hupload env0 "EQ-1000-100" "https" "shop.example" (Some "receipt-1.jpg")
             one_order "EQ-1000-100"
             (new_Order env0 (with_id "EQ-1000-100") "EQ-1000-100")).
    reflexivity.
Defined.

Example busy_day_result :
  orders (serve busy_day one_order) !! "EQ-1000-100"
  = Some (set_status "Shipped"
            (set_receipt "https://shop.example/uploads/receipt-1.jpg"
               (new_Order env0 (with_id "EQ-1000-100") "EQ-1000-100"))).
Proof. reflexivity. Qed.

(** * Further properties of the routes *)

(** ** Clearing a cart *)

(** Clearing the cart of a session and reading it back: the clear answers
    200, the read answers the empty cart [{ sessionId, items: [] }], and no
    other session and no order is touched. *)
Theorem cart_clear_then_get (env env' : Env) (sid : string) (db : Db) :
  storeError env = None →
  storeError env' = None →
  (deleteCart env sid db).2 = respond 200 Success
  ∧ getCart env' sid (deleteCart env sid db).1
    = ((deleteCart env sid db).1, respond 200 (CartBody sid [] None))
  ∧ (∀ sid', sid' ≠ sid →
       carts (deleteCart env sid db).1 !! sid' = carts db !! sid')
  ∧ orders (deleteCart env sid db).1 = orders db.
Proof.
  intros Hup Hup'. unfold deleteCart, Cart_deleteOne.
  rewrite store_answers by done. simpl.
  split; [done|]. split; [|split; [|done]].
  - unfold getCart, Cart_findOne. rewrite store_answers by done. simpl.
    by rewrite lookup_delete_eq.
  - intros sid' Hne. by rewrite lookup_delete_ne.
Qed.

Lemma cart_clear_then_get_witness :
  (deleteCart env0 "sess-1" with_cart).2 = respond 200 Success
  ∧ getCart env0 "sess-1" (deleteCart env0 "sess-1" with_cart).1
    = ((deleteCart env0 "sess-1" with_cart).1, respond 200 (CartBody "sess-1" [] None))
  ∧ (∀ sid', sid' ≠ "sess-1" →
       carts (deleteCart env0 "sess-1" with_cart).1 !! sid' = carts with_cart !! sid')
  ∧ orders (deleteCart env0 "sess-1" with_cart).1 = orders with_cart.
Proof. apply (cart_clear_then_get env0 env0 "sess-1" with_cart); reflexivity. Defined.

(** Clearing the cart of a session that has none is no error: the answer is
    200 [{ success: true }] and the database is exactly as before. *)
Theorem cart_clear_missing (env : Env) (sid : string) (db : Db) :
  storeError env = None →
  carts db !! sid = None →
  deleteCart env sid db = (db, respond 200 Success).
Proof.
  intros Hup Hmiss. unfold deleteCart, Cart_deleteOne.
  rewrite store_answers by done. simpl.
  rewrite delete_id by done. by destruct db.
Qed.

Lemma cart_clear_missing_witness :
  deleteCart env0 "sess-2" with_cart = (with_cart, respond 200 Success).
Proof. apply (cart_clear_missing env0 "sess-2" with_cart); reflexivity. Defined.

(** The cart keeps no history: replacing a cart twice leaves the database
    that the second replacement alone would have left. *)
Theorem cart_last_writer_wins (env1 env2 : Env) (sid : string) (its1 its2 : list Json)
    (db : Db) :
  storeError env2 = None →
  (postCart env2 sid its2 (postCart env1 sid its1 db).1).1
  = (postCart env2 sid its2 db).1.
Proof.
  intros Hup2. unfold postCart, Cart_upsert.
  rewrite !(store_answers env2) by done.
  unfold store. destruct (storeError env1); simpl; [done|].
  rewrite lookup_insert_eq. unfold with_carts. simpl.
  rewrite insert_insert_eq. by destruct (carts db !! sid).
Qed.

Lemma cart_last_writer_wins_witness :
  (postCart env0 "sess-1" one_line (postCart env0 "sess-1" two_lines one_order).1).1
  = (postCart env0 "sess-1" one_line one_order).1.
Proof.
  apply (cart_last_writer_wins env0 env0 "sess-1" two_lines one_line one_order).
  reflexivity.
Defined.

(** ** All routes at once *)

Lemma read_route_db (env : Env) (r : Request) (db : Db) :
  is_read_route r = true → (handle env r db).1 = db.
Proof.
  destruct r as [sid|sid its|sid|p|d|id pr h file| |id s|id]; simpl;
    try discriminate; intros _; try done.
  - unfold getCart, Cart_findOne, store. by destruct (storeError env).
  - unfold adminOrders, Order_find_sorted, store. by destruct (storeError env).
  - unfold track, Order_findOne, store. by destruct (storeError env).
Qed.

Lemma cart_route_orders (env : Env) (r : Request) (db : Db) :
  is_cart_route r = true → orders (handle env r db).1 = orders db.
Proof.
  destruct r as [sid|sid its|sid|p|d|id pr h file| |id s|id]; simpl;
    try discriminate; intros _.
  - unfold getCart, Cart_findOne, store. by destruct (storeError env).
  - unfold postCart, Cart_upsert, store. by destruct (storeError env).
  - unfold deleteCart, Cart_deleteOne, store. by destruct (storeError env).
Qed.

(** The reading routes (cart read, login, admin listing, tracking) never
    change the database; the cart routes never change an order; every other
    route never changes a cart. *)
Theorem route_frames (env : Env) (r : Request) (db : Db) :
  (is_read_route r = true → (handle env r db).1 = db)
  ∧ (is_cart_route r = true → orders (handle env r db).1 = orders db)
  ∧ (is_cart_route r = false → carts (handle env r db).1 = carts db).
Proof.
  split; [apply read_route_db|]. split; [apply cart_route_orders|].
  destruct r as [sid|sid its|sid|p|d|id pr h file| |id s|id]; simpl;
    try discriminate; intros _; try done.
  - unfold postOrder, Order_save, store. destruct (storeError env); [done|].
    by destruct (orders db !! _).
  - destruct file as [f|]; [|done].
    by rewrite uploadReceipt_db, findOneAndUpdate_carts.
  - unfold adminOrders, Order_find_sorted, store. by destruct (storeError env).
  - by rewrite putStatus_db, findOneAndUpdate_carts.
  - unfold track, Order_findOne, store. by destruct (storeError env).
Qed.

Lemma route_frames_witness :
  (handle env0 (Track "EQ-1000-100") with_cart).1 = with_cart
  ∧ orders (handle env0 (DeleteCart "sess-1") with_cart).1 = orders with_cart
  ∧ carts (handle env0 (PutStatus "EQ-1000-100" "Shipped") with_cart).1 = carts with_cart.
Proof.
  split; [|split].
  - destruct (route_frames env0 (Track "EQ-1000-100") with_cart) as (Hread & _).
    apply Hread. reflexivity.
  - destruct (route_frames env0 (DeleteCart "sess-1") with_cart) as (_ & Hcart & _).
    apply Hcart. reflexivity.
  - destruct (route_frames env0 (PutStatus "EQ-1000-100" "Shipped") with_cart)
      as (_ & _ & Hother).
    apply Hother. reflexivity.
Defined.

(** The status codes of the nine route handlers: whenever a request reaches
    one of them, its answer is 200, 201, 401, 404 or 500; among the handlers,
    201 is only answered by the order creation, 401 by the login and 404 by
    the tracking lookup.  (What the framework answers before a handler runs,
    to a body that does not parse or a path with no route, is outside this
    statement.) *)
Theorem status_codes (env : Env) (r : Request) (db : Db) :
  code (handle env r db).2 ∈ [200; 201; 401; 404; 500]
  ∧ (code (handle env r db).2 = 201 → ∃ d, r = PostOrder d)
  ∧ (code (handle env r db).2 = 401 → ∃ p, r = AdminLogin p)
  ∧ (code (handle env r db).2 = 404 → ∃ id, r = Track id).
Proof.
  destruct r as [sid|sid its|sid|p|d|id pr h file| |id s|id]; simpl.
  - unfold getCart, Cart_findOne, store.
    destruct (storeError env); simpl; [|destruct (carts db !! sid)]; simpl;
      (split; [set_solver | by repeat split]).
  - unfold postCart, Cart_upsert, store.
    destruct (storeError env); simpl; (split; [set_solver | by repeat split]).
  - unfold deleteCart, Cart_deleteOne, store.
    destruct (storeError env); simpl; (split; [set_solver | by repeat split]).
  - unfold adminLogin. destruct (String.eqb p (validPassword env)); simpl;
      (split; [set_solver | repeat split; try done; by eexists]).
  - unfold postOrder, Order_save, store.
    destruct (storeError env); simpl; [|destruct (orders db !! _)]; simpl;
      (split; [set_solver | repeat split; try done; by eexists]).
  - unfold uploadReceipt. destruct file as [f|]; simpl;
      [|split; [set_solver | by repeat split]].
    unfold Order_findOneAndUpdate, store.
    destruct (storeError env); simpl; [|destruct (orders db !! id)]; simpl;
      (split; [set_solver | by repeat split]).
  - unfold adminOrders, Order_find_sorted, store.
    destruct (storeError env); simpl; (split; [set_solver | by repeat split]).
  - unfold putStatus, Order_findOneAndUpdate, store.
    destruct (storeError env); simpl; [|destruct (orders db !! id)]; simpl;
      (split; [set_solver | by repeat split]).
  - unfold track, Order_findOne, store.
    destruct (storeError env); simpl; [|destruct (orders db !! id)]; simpl;
      (split; [set_solver | repeat split; try done; by eexists]).
Qed.

Lemma status_codes_witness :
  (∃ d, PostOrder empty_order = PostOrder d)
  ∧ (∃ p, AdminLogin "guess" = AdminLogin p)
  ∧ (∃ id, Track "EQ-9999-999" = Track id).
Proof.
  split; [|split].
  - destruct (status_codes env0 (PostOrder empty_order) empty_db) as (_ & Hcreated & _).
    apply Hcreated. reflexivity.
  - destruct (status_codes env0 (AdminLogin "guess") empty_db) as (_ & _ & Hdenied & _).
    apply Hdenied. reflexivity.
  - destruct (status_codes env0 (Track "EQ-9999-999") empty_db) as (_ & _ & _ & Hmissing).
    apply Hmissing. reflexivity.
Defined.

(** ** The admin listing *)

(** The admin listing answers every stored order exactly once, newest first:
    each order of the answer was created no earlier than every order after
    it. *)
Theorem admin_orders_all_newest_first (env : Env) (db : Db) :
  storeError env = None →
  ∃ all, adminOrders env db = (db, respond 200 (OrderList all))
       ∧ all ≡ₚ (map_to_list (orders db)).*2
       ∧ length all = size (orders db)
       ∧ (∀ o, o ∈ all ↔ ∃ k, orders db !! k = Some o)
       ∧ StronglySorted newer_first all.
Proof.
  intros Hup. unfold adminOrders, Order_find_sorted.
  rewrite store_answers by done. simpl. eexists. split; [reflexivity|].
  assert (Hperm : merge_sort newer_first (map_to_list (orders db)).*2
                  ≡ₚ (map_to_list (orders db)).*2) by apply merge_sort_Permutation.
  split; [done|]. split; [|split].
  - by rewrite Hperm, length_fmap, length_map_to_list.
  - intros o. rewrite Hperm, list_elem_of_fmap. split.
    + intros ([k o'] & -> & Hin). exists k. by apply elem_of_map_to_list.
    + intros (k & Hk). exists (k, o). split; [done|]. by apply elem_of_map_to_list.
  - apply StronglySorted_merge_sort.
    + intros a b c. unfold newer_first. lia.
    + intros a b. unfold newer_first. lia.
Qed.

Lemma admin_orders_all_newest_first_witness :
  ∃ all, adminOrders env0 two_orders = (two_orders, respond 200 (OrderList all))
       ∧ all ≡ₚ (map_to_list (orders two_orders)).*2
       ∧ length all = size (orders two_orders)
       ∧ (∀ o, o ∈ all ↔ ∃ k, orders two_orders !! k = Some o)
       ∧ StronglySorted newer_first all.
Proof. apply (admin_orders_all_newest_first env0 two_orders). reflexivity. Defined.

(** ** Creating, updating and tracking *)

(** Create never writes over an order: when the id of the new order (the
    supplied one, or the generated one) is already taken the answer is 500
    and the database is unchanged; and whatever the outcome, every order that
    was stored is still stored, unchanged. *)
Theorem create_never_overwrites (env : Env) (d : OrderData) (db : Db) :
  (storeError env = None → is_Some (orders db !! assignedId env d) →
     postOrder env d db = (db, respond 500 (Failure duplicate_key)))
  ∧ (∀ k o, orders db !! k = Some o → orders (postOrder env d db).1 !! k = Some o)
  ∧ (code (postOrder env d db).2 = 201 →
       size (orders (postOrder env d db).1) = S (size (orders db))).
Proof.
  unfold postOrder, Order_save, store. split; [|split].
  - intros -> [o Ho]. simpl. by rewrite Ho.
  - intros k o Hk. destruct (storeError env); simpl; [done|].
    destruct (orders db !! assignedId env d) eqn:Hid; simpl; [done|].
    rewrite lookup_insert_ne; [done | congruence].
  - destruct (storeError env); simpl; [discriminate|].
    destruct (orders db !! assignedId env d) eqn:Hid; simpl; [discriminate|].
    intros _. by apply map_size_insert_None.
Qed.

Lemma create_never_overwrites_witness :
  postOrder env0 empty_order one_order = (one_order, respond 500 (Failure duplicate_key))
  ∧ orders (postOrder half_draws empty_order one_order).1 !! "EQ-1000-100"
    = Some (new_Order env0 (with_id "EQ-1000-100") "EQ-1000-100")
  ∧ size (orders (postOrder half_draws empty_order one_order).1) = S (size (orders one_order)).
Proof.
  split; [|split].
  - destruct (create_never_overwrites env0 empty_order one_order) as (Hdup & _).
    apply Hdup; [reflexivity | by eexists].
  - destruct (create_never_overwrites half_draws empty_order one_order) as (_ & Hkeep & _).
    apply Hkeep. reflexivity.
  - destruct (create_never_overwrites half_draws empty_order one_order) as (_ & _ & Hsize).
    apply Hsize. reflexivity.
Defined.

(** What tracking shows of a freshly created order: the status, total and
    creation time of the payload when it has them (the status is not checked
    against any list), and otherwise the defaults of the schema: status
    'Pending Verification', customer name 'Guest', creation time the time of
    the call. *)
Theorem create_then_track (env env' : Env) (d : OrderData) (db : Db) :
  storeError env = None →
  storeError env' = None →
  orders db !! assignedId env d = None →
  ∃ st nm created,
    track env' (assignedId env d) (postOrder env d db).1
    = ((postOrder env d db).1,
       respond 200 (Tracked st nm (od_total d) (assignedId env d) created))
    ∧ (∀ s, od_status d = Some s → st = s)
    ∧ (od_status d = None → st = "Pending Verification")
    ∧ (od_customer d = None → nm = "Guest")
    ∧ (∀ c, od_customer d = Some c → cd_name c = None → nm = "Guest")
    ∧ (∀ c n, od_customer d = Some c → cd_name c = Some n → nm = n)
    ∧ (∀ t, od_createdAt d = Some t → created = t)
    ∧ (od_createdAt d = None → created = now env).
Proof.
  intros Hup Hup' Hfresh.
  exists (status (new_Order env d (assignedId env d))),
         (name (customer (new_Order env d (assignedId env d)))),
         (createdAt (new_Order env d (assignedId env d))).
  split.
  - unfold postOrder. rewrite save_fresh by done. simpl.
    unfold track, Order_findOne. rewrite store_answers by done. simpl.
    by rewrite lookup_insert_eq.
  - simpl. repeat split.
    + by intros s ->.
    + by intros ->.
    + by intros ->.
    + by intros c -> ->.
    + by intros c n -> ->.
    + by intros t ->.
    + by intros ->.
Qed.

Lemma create_then_track_witness :
  ∃ st nm created,
    track env0 (assignedId env0 shipped_order) (postOrder env0 shipped_order one_order).1
    = ((postOrder env0 shipped_order one_order).1,
       respond 200 (Tracked st nm (od_total shipped_order)
                            (assignedId env0 shipped_order) created))
    ∧ (∀ s, od_status shipped_order = Some s → st = s)
    ∧ (od_status shipped_order = None → st = "Pending Verification")
    ∧ (od_customer shipped_order = None → nm = "Guest")
    ∧ (∀ c, od_customer shipped_order = Some c → cd_name c = None → nm = "Guest")
    ∧ (∀ c n, od_customer shipped_order = Some c → cd_name c = Some n → nm = n)
    ∧ (∀ t, od_createdAt shipped_order = Some t → created = t)
    ∧ (od_createdAt shipped_order = None → created = now env0).
Proof.
  apply (create_then_track env0 env0 shipped_order one_order); reflexivity.
Defined.

Example create_then_track_shipped :
  track env0 "EQ-7000-700" (postOrder env0 shipped_order one_order).1
  = ((postOrder env0 shipped_order one_order).1,
     respond 200 (Tracked "Shipped" "Ada" (Some (250 # 1)%Q) "EQ-7000-700" 5)).
Proof. reflexivity. Qed.

(** Tracking after an update shows the update: after a status update the
    tracked status is the new one, after a receipt upload it is 'Pending
    Verification'; the customer name, total, orderId and createdAt shown are
    those of the order before the update. *)
Theorem update_then_track (env env' : Env) (id : string) (db : Db) (o : Order) :
  storeError env = None →
  storeError env' = None →
  orders db !! id = Some o →
  (∀ s, track env' id (putStatus env id s db).1
        = ((putStatus env id s db).1,
           respond 200 (Tracked s (name (customer o)) (total o) (orderId o) (createdAt o))))
  ∧ (∀ protocol host f,
       track env' id (uploadReceipt env id protocol host (Some f) db).1
       = ((uploadReceipt env id protocol host (Some f) db).1,
          respond 200 (Tracked "Pending Verification" (name (customer o)) (total o)
                               (orderId o) (createdAt o)))).
Proof.
  intros Hup Hup' Hfound. split.
  - intros s. unfold putStatus. rewrite (findOneAndUpdate_hit _ _ _ _ o) by done. simpl.
    unfold track, Order_findOne. rewrite store_answers by done. simpl.
    by rewrite lookup_insert_eq.
  - intros protocol host f. unfold uploadReceipt.
    rewrite (findOneAndUpdate_hit _ _ _ _ o) by done. simpl.
    unfold track, Order_findOne. rewrite store_answers by done. simpl.
    by rewrite lookup_insert_eq.
Qed.

Lemma update_then_track_witness :
  track env0 "EQ-1000-100" (putStatus env0 "EQ-1000-100" "Shipped" one_order).1
  = ((putStatus env0 "EQ-1000-100" "Shipped" one_order).1,
     respond 200 (Tracked "Shipped" "Guest" (Some (100 # 1)%Q) "EQ-1000-100" 1700000000000)).
Proof.
  destruct (update_then_track env0 env0 "EQ-1000-100" one_order
              (new_Order env0 (with_id "EQ-1000-100") "EQ-1000-100")
              eq_refl eq_refl eq_refl) as (Hput & _).
  apply (Hput "Shipped").
Defined.

(** No history of statuses is kept: a status update after another one on the
    same id leaves the database that the later update alone would have left,
    whether or not the order exists. *)
Theorem status_last_writer_wins (env1 env2 : Env) (id s1 s2 : string) (db : Db) :
  storeError env2 = None →
  (putStatus env2 id s2 (putStatus env1 id s1 db).1).1 = (putStatus env2 id s2 db).1.
Proof.
  intros Hup2. rewrite !putStatus_db.
  unfold Order_findOneAndUpdate. rewrite !(store_answers env2) by done.
  unfold store. destruct (storeError env1); simpl; [done|].
  destruct (orders db !! id) as [o|] eqn:Hid; simpl.
  - rewrite lookup_insert_eq. simpl. unfold with_orders. simpl.
    by rewrite insert_insert_eq.
  - by rewrite Hid.
Qed.

Lemma status_last_writer_wins_witness :
  (putStatus env0 "EQ-1000-100" "Shipped"
     (putStatus env0 "EQ-1000-100" "Approved" one_order).1).1
  = (putStatus env0 "EQ-1000-100" "Shipped" one_order).1.
Proof.
  apply (status_last_writer_wins env0 env0 "EQ-1000-100" "Approved" "Shipped" one_order).
  reflexivity.
Defined.

Lemma findOneAndUpdate_commute (env1 env2 : Env) (id1 id2 : string) (f1 f2 : Order → Order)
    (db : Db) :
  id1 ≠ id2 →
  (Order_findOneAndUpdate env2 id2 f2 (Order_findOneAndUpdate env1 id1 f1 db).1).1
  = (Order_findOneAndUpdate env1 id1 f1 (Order_findOneAndUpdate env2 id2 f2 db).1).1.
Proof.
  intros Hne. unfold Order_findOneAndUpdate, store.
  destruct (storeError env1), (storeError env2); simpl; try done.
  destruct (orders db !! id1) as [o1|] eqn:H1, (orders db !! id2) as [o2|] eqn:H2; simpl.
  - rewrite lookup_insert_ne, H2 by done. simpl.
    rewrite lookup_insert_ne, H1 by done. simpl.
    unfold with_orders. simpl. f_equal. by apply insert_insert_ne.
  - rewrite lookup_insert_ne, H2 by done. simpl. by rewrite H1.
  - rewrite H2. simpl. rewrite lookup_insert_ne, H1 by done. done.
  - rewrite H2. simpl. by rewrite H1.
Qed.

(** Updates of two different orders do not interfere: two status updates, a
    status update and a receipt upload, or two receipt uploads, on different
    ids, leave the same database in either order. *)
Theorem updates_of_different_orders_commute (env1 env2 : Env) (id1 id2 : string) (db : Db) :
  id1 ≠ id2 →
  (∀ s1 s2,
     (putStatus env2 id2 s2 (putStatus env1 id1 s1 db).1).1
     = (putStatus env1 id1 s1 (putStatus env2 id2 s2 db).1).1)
  ∧ (∀ protocol host f s2,
       (putStatus env2 id2 s2 (uploadReceipt env1 id1 protocol host (Some f) db).1).1
       = (uploadReceipt env1 id1 protocol host (Some f) (putStatus env2 id2 s2 db).1).1)
  ∧ (∀ protocol1 host1 f1 protocol2 host2 f2,
       (uploadReceipt env2 id2 protocol2 host2 (Some f2)
          (uploadReceipt env1 id1 protocol1 host1 (Some f1) db).1).1
       = (uploadReceipt env1 id1 protocol1 host1 (Some f1)
            (uploadReceipt env2 id2 protocol2 host2 (Some f2) db).1).1).
Proof.
  intros Hne. split; [|split]; intros.
  - rewrite !putStatus_db. by apply findOneAndUpdate_commute.
  - rewrite !putStatus_db, !uploadReceipt_db. by apply findOneAndUpdate_commute.
  - rewrite !uploadReceipt_db. by apply findOneAndUpdate_commute.
Qed.

Lemma updates_of_different_orders_commute_witness :
  (putStatus env0 "EQ-5500-775" "Shipped"
     (uploadReceipt env0 "EQ-1000-100" "https" "shop.example" (Some "r.png") two_orders).1).1
  = (uploadReceipt env0 "EQ-1000-100" "https" "shop.example" (Some "r.png")
       (putStatus env0 "EQ-5500-775" "Shipped" two_orders).1).1.
Proof.
  destruct (updates_of_different_orders_commute env0 env0 "EQ-1000-100" "EQ-5500-775"
              two_orders) as (_ & Hmixed & _); [discriminate|].
  apply Hmixed.
Defined.

(** Tracking never answers with another order: in any database that a
    sequence of requests builds from the empty one, a tracking lookup is
    answered 404 or with the data of the order whose orderId is the id that
    was asked for. *)
Theorem track_answers_the_id_asked (rs : list (Env * Request)) (env : Env) (id : string) :
  storeError env = None →
  (track env id (serve rs empty_db)).2 = respond 404 (Failure "Order not found")
  ∨ ∃ o, orders (serve rs empty_db) !! id = Some o
       ∧ orderId o = id
       ∧ (track env id (serve rs empty_db)).2
         = respond 200 (Tracked (status o) (name (customer o)) (total o) id (createdAt o)).
Proof.
  intros Hup.
  pose proof (serve_consistent rs empty_db consistent_empty) as [Hkeys _].
  unfold track, Order_findOne. rewrite store_answers by done. simpl.
  destruct (orders (serve rs empty_db) !! id) as [o|] eqn:Hid; [right | by left].
  exists o. pose proof (Hkeys id o Hid) as Hsame. by rewrite Hsame.
Qed.

Lemma track_answers_the_id_asked_witness :
  (track env0 "EQ-1000-100" (serve busy_day empty_db)).2
  = respond 404 (Failure "Order not found")
  ∨ ∃ o, orders (serve busy_day empty_db) !! "EQ-1000-100" = Some o
       ∧ orderId o = "EQ-1000-100"
       ∧ (track env0 "EQ-1000-100" (serve busy_day empty_db)).2
         = respond 200 (Tracked (status o) (name (customer o)) (total o)
                                "EQ-1000-100" (createdAt o)).
Proof. apply (track_answers_the_id_asked busy_day env0 "EQ-1000-100"). reflexivity. Defined.

(** ** Ids chosen by the server *)

Lemma handle_new_key (env : Env) (r : Request) (db : Db) (k : string) :
  is_Some (orders (handle env r db).1 !! k) →
  is_Some (orders db !! k) ∨ ∃ d, r = PostOrder d ∧ k = assignedId env d.
Proof.
  pose proof (read_route_db env r db) as Hread.
  pose proof (cart_route_orders env r db) as Hcart.
  destruct r as [sid|sid its|sid|p|d|id pr h file| |id s|id];
    try (rewrite Hcart by reflexivity; by left);
    try (rewrite Hread by reflexivity; by left);
    clear Hread Hcart; simpl.
  - unfold postOrder, Order_save, store.
    destruct (storeError env); simpl; [auto|].
    destruct (orders db !! assignedId env d) eqn:Hid; simpl; [auto|].
    destruct (decide (assignedId env d = k)) as [<-|Hne].
    + intros _. right. by exists d.
    + rewrite lookup_insert_ne by done. auto.
  - destruct file as [f|]; [|auto]. rewrite uploadReceipt_db.
    unfold Order_findOneAndUpdate, store.
    destruct (storeError env); simpl; [auto|].
    destruct (orders db !! id) eqn:Hid; simpl; [|auto].
    destruct (decide (id = k)) as [<-|Hne].
    + intros _. left. by rewrite Hid.
    + rewrite lookup_insert_ne by done. auto.
  - rewrite putStatus_db. unfold Order_findOneAndUpdate, store.
    destruct (storeError env); simpl; [auto|].
    destruct (orders db !! id) eqn:Hid; simpl; [|auto].
    destruct (decide (id = k)) as [<-|Hne].
    + intros _. left. by rewrite Hid.
    + rewrite lookup_insert_ne by done. auto.
Qed.

(** When no client supplies an orderId (the field is absent or empty in every
    creation payload), every order stored by any sequence of requests has an
    id of the generated form [EQ-dddd-ddd], and sits under that id. *)
Theorem server_chosen_ids_are_canonical (rs : list (Env * Request)) (k : string) (o : Order) :
  Forall (λ er, draws_in_range er.1 ∧ leaves_id_to_server er.2) rs →
  orders (serve rs empty_db) !! k = Some o →
  is_generated_format k = true ∧ orderId o = k.
Proof.
  intros Hrs Hk. split.
  - cut (∀ db, (∀ k, is_Some (orders db !! k) → is_generated_format k = true) →
               ∀ k, is_Some (orders (serve rs db) !! k) → is_generated_format k = true).
    { intros Hinv. apply (Hinv empty_db); [|by eexists].
      intros k' [o' Ho']. simpl in Ho'. by rewrite lookup_empty in Ho'. }
    clear k o Hk. induction Hrs as [|[env r] rs [[Hr1 Hr2] Hid] _ IH]; intros db Hdb k Hk.
    + by apply Hdb.
    + simpl in Hk. revert k Hk. apply IH. intros k Hk.
      destruct (handle_new_key env r db k Hk) as [Hold | (d & -> & ->)]; [by apply Hdb|].
      simpl in Hid. unfold assignedId.
      destruct (randomRef_format env Hr1 Hr2) as (a & b & _ & _ & _ & Hfmt).
      by destruct Hid as [-> | ->].
  - pose proof (serve_consistent rs empty_db consistent_empty) as [Hkeys _].
    by apply Hkeys.
Qed.

Lemma server_chosen_ids_are_canonical_witness :
  is_generated_format "EQ-5500-775" = true
  ∧ orderId (new_Order half_draws empty_order "EQ-5500-775") = "EQ-5500-775".
Proof.
  apply (server_chosen_ids_are_canonical quiet_day "EQ-5500-775"
           (new_Order half_draws empty_order "EQ-5500-775")).
  - unfold quiet_day, draws_in_range, random_draw, unit_interval.
    repeat constructor; simpl; try lra; auto.
  - reflexivity.
Defined.

(** ** Names of uploaded files *)

Lemma pretty_N_go_no_dot (x : N) (s : string) :
  no_dot s = true → no_dot (pretty_N_go x s) = true.
Proof.
  revert s. induction (N.lt_wf_0 x) as [x _ IH]; intros s Hs.
  destruct (decide (x = 0)%N) as [->|Hx].
  - by rewrite pretty_N_go_0.
  - rewrite pretty_N_go_step by lia. apply IH.
    + apply N.div_lt; lia.
    + simpl. rewrite Hs, andb_true_r. unfold pretty_N_char.
      by repeat case_match.
Qed.

Lemma pretty_N_no_dot (x : N) : no_dot (pretty x) = true.
Proof.
  unfold pretty, pretty_N. case_decide; [done|]. by apply pretty_N_go_no_dot.
Qed.

Lemma pretty_Z_no_dot (z : Z) : no_dot (pretty z) = true.
Proof.
  destruct z as [|p|p]; [done|..].
  - apply (pretty_N_no_dot (N.pos p)).
  - change (no_dot (String "-" (pretty (N.pos p))) = true). simpl.
    apply (pretty_N_no_dot (N.pos p)).
Qed.

(** A string without dots followed by an extension splits in one way only. *)
Lemma split_at_extension (s1 s2 e1 e2 : string) :
  no_dot s1 = true → no_dot s2 = true →
  dot_or_empty e1 → dot_or_empty e2 →
  s1 +:+ e1 = s2 +:+ e2 →
  s1 = s2 ∧ e1 = e2.
Proof.
  revert s2. induction s1 as [|c1 s1 IH]; intros [|c2 s2] Hs1 Hs2 He1 He2 Heq; simpl in *.
  - done.
  - destruct He1 as [-> | [r ->]]; [discriminate|].
    injection Heq as <- _. by rewrite Ascii.eqb_refl in Hs2.
  - destruct He2 as [-> | [r ->]]; [discriminate|].
    injection Heq as -> _. by rewrite Ascii.eqb_refl in Hs1.
  - injection Heq as -> Heq.
    apply andb_true_iff in Hs1 as [_ Hs1]. apply andb_true_iff in Hs2 as [_ Hs2].
    destruct (IH s2 Hs1 Hs2 He1 He2 Heq) as [-> ->]. done.
Qed.

Lemma after_last_dot_shape (p : string) : dot_or_empty (after_last_dot p).
Proof.
  induction p as [|c p IH]; simpl; [by left|].
  destruct (after_last_dot p) as [|c' e] eqn:He.
  - destruct (Ascii.eqb_spec c "."); [subst c; right; by eexists | by left].
  - done.
Qed.

Lemma storage_filename_inj (extname : string → string) (env1 env2 : Env) (n1 n2 : string) :
  (∀ p, dot_or_empty (extname p)) →
  storage_filename extname env1 n1 = storage_filename extname env2 n2 →
  now env1 = now env2 ∧ extname n1 = extname n2.
Proof.
  intros Hext Heq. unfold storage_filename in Heq.
  assert (Hsplit : pretty (now env1) = pretty (now env2) ∧ extname n1 = extname n2).
  { apply split_at_extension; try apply pretty_Z_no_dot; try apply Hext.
    simpl in Heq. by simplify_eq. }
  destruct Hsplit as [Hnow Hsame]. split; [|done].
  by apply (inj pretty).
Qed.

(** Two uploads get the same file name exactly when they happen in the same
    millisecond and their original names have the same extension; so uploads
    at different times never share a name, and two uploads of, say, '.jpg'
    files within one millisecond do.  This for any [path.extname] that
    returns nothing or a dot and what follows it. *)
Theorem upload_names_collide_only_in_same_ms (extname : string → string) (env1 env2 : Env)
    (n1 n2 : string) :
  (∀ p, dot_or_empty (extname p)) →
  storage_filename extname env1 n1 = storage_filename extname env2 n2
  ↔ now env1 = now env2 ∧ extname n1 = extname n2.
Proof.
  intros Hext. split.
  - by apply storage_filename_inj.
  - unfold storage_filename. by intros [-> ->].
Qed.

Lemma upload_names_collide_only_in_same_ms_witness :
  (storage_filename after_last_dot env0 "slip.jpg" = storage_filename after_last_dot env0 "other.jpg"
   ↔ now env0 = now env0 ∧ after_last_dot "slip.jpg" = after_last_dot "other.jpg")
  ∧ (storage_filename after_last_dot env0 "slip.jpg" = storage_filename after_last_dot later "slip.jpg"
     ↔ now env0 = now later ∧ after_last_dot "slip.jpg" = after_last_dot "slip.jpg").
Proof.
  split.
  - apply (upload_names_collide_only_in_same_ms after_last_dot env0 env0 "slip.jpg" "other.jpg").
    apply after_last_dot_shape.
  - apply (upload_names_collide_only_in_same_ms after_last_dot env0 later "slip.jpg" "slip.jpg").
    apply after_last_dot_shape.
Defined.

Example storage_filename_sample :
  storage_filename after_last_dot env0 "bank slip.v2.jpg" = "receipt-1700000000000.jpg".
Proof. reflexivity. Qed.

(** The upload route end to end: for a stored order and a request with a
    file, the order references the file under
    [protocol://host/uploads/receipt-<time><extension>]; a second upload at
    another time makes the order reference a different file, and the first
    reference is no longer held by the order; a request without a file is
    answered 500 and changes nothing. *)
Theorem upload_route_references (extname : string → string) (env : Env)
    (id protocol host : string) (db : Db) (o : Order) :
  (∀ p, dot_or_empty (extname p)) →
  storeError env = None →
  orders db !! id = Some o →
  (∀ n, receiptImg <$> orders (uploadRoute extname env id protocol host (Some n) db).1 !! id
        = Some (Some (protocol +:+ "://" +:+ host +:+ "/uploads/receipt-"
                        +:+ pretty (now env) +:+ extname n)))
  ∧ (∀ n env2 n2, storeError env2 = None → now env2 ≠ now env →
       ∃ url1 url2,
         receiptImg <$> orders (uploadRoute extname env id protocol host (Some n) db).1 !! id
         = Some (Some url1)
         ∧ receiptImg <$> orders (uploadRoute extname env2 id protocol host (Some n2)
                                    (uploadRoute extname env id protocol host (Some n) db).1).1
                            !! id
           = Some (Some url2)
         ∧ url1 ≠ url2)
  ∧ uploadRoute extname env id protocol host None db = (db, respond 500 (Failure no_file)).
Proof.
  intros Hext Hup Hfound.
  assert (Hfirst : ∀ n, orders (uploadRoute extname env id protocol host (Some n) db).1 !! id
                        = Some (set_receipt (fileUrl protocol host (storage_filename extname env n)) o)).
  { intros n. unfold uploadRoute.
    change (storage_filename extname env <$> Some n)
      with (Some (storage_filename extname env n)).
    rewrite uploadReceipt_db.
    rewrite (findOneAndUpdate_hit _ _ _ _ o) by done. simpl. by rewrite lookup_insert_eq. }
  split; [|split; [|done]].
  - intros n. rewrite Hfirst. reflexivity.
  - intros n env2 n2 Hup2 Hlater.
    exists (fileUrl protocol host (storage_filename extname env n)),
           (fileUrl protocol host (storage_filename extname env2 n2)).
    split; [by rewrite Hfirst|]. split.
    + unfold uploadRoute at 1.
      change (storage_filename extname env2 <$> Some n2)
        with (Some (storage_filename extname env2 n2)).
      rewrite uploadReceipt_db.
      erewrite findOneAndUpdate_hit; [|done|apply Hfirst]. simpl.
      by rewrite lookup_insert_eq.
    + unfold fileUrl. intros Heq.
      do 4 apply (inj (String.append _)) in Heq.
      apply (storage_filename_inj extname env env2 n n2 Hext) in Heq as [Hnow _].
      congruence.
Qed.

Lemma upload_route_references_witness :
  (∀ n, receiptImg <$> orders (uploadRoute after_last_dot env0 "EQ-1000-100" "https"
                                 "shop.example" (Some n) one_order).1 !! "EQ-1000-100"
        = Some (Some ("https" +:+ "://" +:+ "shop.example" +:+ "/uploads/receipt-"
                        +:+ pretty (now env0) +:+ after_last_dot n)))
  ∧ (∀ n env2 n2, storeError env2 = None → now env2 ≠ now env0 →
       ∃ url1 url2,
         receiptImg <$> orders (uploadRoute after_last_dot env0 "EQ-1000-100" "https"
                                  "shop.example" (Some n) one_order).1 !! "EQ-1000-100"
         = Some (Some url1)
         ∧ receiptImg <$> orders (uploadRoute after_last_dot env2 "EQ-1000-100" "https"
                                    "shop.example" (Some n2)
                                    (uploadRoute after_last_dot env0 "EQ-1000-100" "https"
                                       "shop.example" (Some n) one_order).1).1
                            !! "EQ-1000-100"
           = Some (Some url2)
         ∧ url1 ≠ url2)
  ∧ uploadRoute after_last_dot env0 "EQ-1000-100" "https" "shop.example" None one_order
    = (one_order, respond 500 (Failure no_file)).
Proof.
  apply (upload_route_references after_last_dot env0 "EQ-1000-100" "https" "shop.example"
           one_order (new_Order env0 (with_id "EQ-1000-100") "EQ-1000-100")).
  - apply after_last_dot_shape.
  - reflexivity.
  - reflexivity.
Defined.

(** * The earlier revisions *)

(** ** First revision: references, lifecycle, answers *)

(** In the first revision the orderId of the payload is never used: the
    order is stored under the drawn reference, which has the generated form,
    the answer is 201 with that reference, and nothing is stored under the id
    the client sent. *)
Theorem rev1_create_ignores_supplied_id (env : Env) (d : Rev1.OrderData)
    (db : gmap string Rev1.Order) :
  draws_in_range env →
  storeError env = None →
  db !! randomRef env = None →
  is_generated_format (randomRef env) = true
  ∧ (∃ o, Rev1.postOrder env d db
          = (<[randomRef env := o]> db, Rev1.respond 201 (Rev1.CreatedRef (randomRef env)))
        ∧ Rev1.orderId o = randomRef env)
  ∧ (∀ s, Rev1.od_orderId d = Some s → s ≠ randomRef env →
       (Rev1.postOrder env d db).1 !! s = db !! s).
Proof.
  intros [Hr1 Hr2] Hup Hfresh.
  destruct (randomRef_format env Hr1 Hr2) as (a & b & _ & _ & _ & Hfmt).
  assert (Hpost : Rev1.postOrder env d db
                  = (<[randomRef env := Rev1.new_Order env d (randomRef env)]> db,
                     Rev1.respond 201 (Rev1.CreatedRef (randomRef env)))).
  { unfold Rev1.postOrder, Rev1.store. by rewrite Hup, Hfresh. }
  split; [done|]. split.
  - by eexists.
  - intros s _ Hne. rewrite Hpost. simpl. by rewrite lookup_insert_ne.
Qed.

Lemma rev1_create_ignores_supplied_id_witness :
  is_generated_format (randomRef half_draws) = true
  ∧ (∃ o, Rev1.postOrder half_draws Rev1.sample ∅
          = (<[randomRef half_draws := o]> ∅,
             Rev1.respond 201 (Rev1.CreatedRef (randomRef half_draws)))
        ∧ Rev1.orderId o = randomRef half_draws)
  ∧ (∀ s, Rev1.od_orderId Rev1.sample = Some s → s ≠ randomRef half_draws →
       (Rev1.postOrder half_draws Rev1.sample ∅).1 !! s = (∅ : gmap string Rev1.Order) !! s).
Proof.
  apply (rev1_create_ignores_supplied_id half_draws Rev1.sample ∅).
  - split; (split; [reflexivity | split; simpl; lra]).
  - reflexivity.
  - reflexivity.
Defined.

Lemma rev1_handle_new_key (env : Env) (r : Rev1.Request) (db : gmap string Rev1.Order)
    (k : string) (o : Rev1.Order) :
  (Rev1.handle env r db).1 !! k = Some o →
  (∃ o0, db !! k = Some o0 ∧ Rev1.orderId o = Rev1.orderId o0)
  ∨ (k = randomRef env ∧ Rev1.orderId o = k).
Proof.
  destruct r as [d|id file| |id s|id]; simpl.
  - unfold Rev1.postOrder, Rev1.store.
    destruct (storeError env); simpl; [eauto|].
    destruct (db !! randomRef env) eqn:Hid; simpl; [eauto|].
    destruct (decide (randomRef env = k)) as [<-|Hne].
    + rewrite lookup_insert_eq. intros [= <-]. by right.
    + rewrite lookup_insert_ne by done. eauto.
  - unfold Rev1.uploadReceipt. destruct file as [f|]; simpl; [|eauto].
    unfold Rev1.Order_findOneAndUpdate, Rev1.store.
    destruct (storeError env); simpl; [eauto|].
    destruct (db !! id) as [o0|] eqn:Hid; simpl; [|eauto].
    destruct (decide (id = k)) as [<-|Hne].
    + rewrite lookup_insert_eq. intros [= <-]. left. by exists o0.
    + rewrite lookup_insert_ne by done. eauto.
  - unfold Rev1.adminOrders, Rev1.store. destruct (storeError env); simpl; eauto.
  - unfold Rev1.putStatus, Rev1.Order_findOneAndUpdate, Rev1.store.
    destruct (storeError env); simpl; [eauto|].
    destruct (db !! id) as [o0|] eqn:Hid; simpl; [|eauto].
    destruct (decide (id = k)) as [<-|Hne].
    + rewrite lookup_insert_eq. intros [= <-]. left. by exists o0.
    + rewrite lookup_insert_ne by done. eauto.
  - unfold Rev1.track, Rev1.store. destruct (storeError env); simpl; eauto.
Qed.

(** In the first revision every order stored by any sequence of requests,
    whatever the payloads hold, has an id of the generated form
    [EQ-dddd-ddd] and sits under that id. *)
Theorem rev1_ids_always_canonical (rs : list (Env * Rev1.Request)) (k : string)
    (o : Rev1.Order) :
  Forall (λ er, draws_in_range er.1) rs →
  Rev1.serve rs ∅ !! k = Some o →
  is_generated_format k = true ∧ Rev1.orderId o = k.
Proof.
  intros Hrs.
  cut (∀ db : gmap string Rev1.Order,
         (∀ k o, db !! k = Some o → is_generated_format k = true ∧ Rev1.orderId o = k) →
         ∀ k o, Rev1.serve rs db !! k = Some o →
                is_generated_format k = true ∧ Rev1.orderId o = k).
  { intros Hinv. apply Hinv. intros k' o'. by rewrite lookup_empty. }
  clear k o. induction Hrs as [|[env r] rs [Hr1 Hr2] _ IH]; intros db Hdb k o Hk.
  - by apply Hdb.
  - simpl in Hk. revert k o Hk. apply IH. intros k o Hk.
    destruct (rev1_handle_new_key env r db k o Hk) as [(o0 & Hold & Hsame) | [-> Hid]].
    + destruct (Hdb k o0 Hold) as [Hfmt Hkey]. split; [done | congruence].
    + destruct (randomRef_format env Hr1 Hr2) as (a & b & _ & _ & _ & Hfmt). done.
Qed.

Lemma rev1_ids_always_canonical_witness :
  is_generated_format "EQ-5500-775" = true
  ∧ Rev1.orderId (Rev1.new_Order half_draws Rev1.sample "EQ-5500-775") = "EQ-5500-775".
Proof.
  apply (rev1_ids_always_canonical
           [(half_draws, Rev1.PostOrder Rev1.sample);
            (env0, Rev1.PutStatus "EQ-5500-775" "Approved");
            (env0, Rev1.PutStatus "EQ-5500-775" "Awaiting Payment")]
           "EQ-5500-775" (Rev1.new_Order half_draws Rev1.sample "EQ-5500-775")).
  - unfold draws_in_range, random_draw, unit_interval. repeat constructor; simpl; lra.
  - reflexivity.
Defined.

(** The lifecycle of the first revision: an order created without a status
    is tracked as 'Awaiting Payment' with its creation date; after a receipt
    upload it is tracked as 'Pending Verification', with the same date, and
    holds the relative URL [/uploads/<file>]. *)
Theorem rev1_lifecycle (env env1 env2 : Env) (d : Rev1.OrderData)
    (db : gmap string Rev1.Order) :
  storeError env = None →
  storeError env1 = None →
  storeError env2 = None →
  Rev1.od_status d = None →
  db !! randomRef env = None →
  Rev1.track env2 (randomRef env) (Rev1.postOrder env d db).1
  = ((Rev1.postOrder env d db).1,
     Rev1.respond 200 (Rev1.TrackedStatus "Awaiting Payment"
                         (default (now env) (Rev1.od_createdAt d))))
  ∧ (∀ file,
       Rev1.track env2 (randomRef env)
         (Rev1.uploadReceipt env1 (randomRef env) (Some file) (Rev1.postOrder env d db).1).1
       = ((Rev1.uploadReceipt env1 (randomRef env) (Some file) (Rev1.postOrder env d db).1).1,
          Rev1.respond 200 (Rev1.TrackedStatus "Pending Verification"
                              (default (now env) (Rev1.od_createdAt d))))
       ∧ Rev1.receiptImg <$>
           (Rev1.uploadReceipt env1 (randomRef env) (Some file) (Rev1.postOrder env d db).1).1
             !! randomRef env
         = Some (Some ("/uploads/" +:+ file))).
Proof.
  intros Hup Hup1 Hup2 Hstatus Hfresh.
  assert (Hpost : (Rev1.postOrder env d db).1
                  = <[randomRef env := Rev1.new_Order env d (randomRef env)]> db).
  { unfold Rev1.postOrder, Rev1.store. by rewrite Hup, Hfresh. }
  rewrite Hpost. split.
  - unfold Rev1.track, Rev1.store. rewrite Hup2. simpl.
    rewrite lookup_insert_eq. simpl. by rewrite Hstatus.
  - intros file.
    unfold Rev1.uploadReceipt, Rev1.Order_findOneAndUpdate, Rev1.store.
    rewrite Hup1. simpl. rewrite lookup_insert_eq. simpl.
    unfold Rev1.track, Rev1.store. rewrite Hup2. simpl.
    by rewrite !lookup_insert_eq.
Qed.

Lemma rev1_lifecycle_witness :
  Rev1.track env0 (randomRef half_draws) (Rev1.postOrder half_draws Rev1.sample ∅).1
  = ((Rev1.postOrder half_draws Rev1.sample ∅).1,
     Rev1.respond 200 (Rev1.TrackedStatus "Awaiting Payment"
                         (default (now half_draws) (Rev1.od_createdAt Rev1.sample))))
  ∧ (∀ file,
       Rev1.track env0 (randomRef half_draws)
         (Rev1.uploadReceipt env0 (randomRef half_draws) (Some file)
            (Rev1.postOrder half_draws Rev1.sample ∅).1).1
       = ((Rev1.uploadReceipt env0 (randomRef half_draws) (Some file)
             (Rev1.postOrder half_draws Rev1.sample ∅).1).1,
          Rev1.respond 200 (Rev1.TrackedStatus "Pending Verification"
                              (default (now half_draws) (Rev1.od_createdAt Rev1.sample))))
       ∧ Rev1.receiptImg <$>
           (Rev1.uploadReceipt env0 (randomRef half_draws) (Some file)
              (Rev1.postOrder half_draws Rev1.sample ∅).1).1 !! randomRef half_draws
         = Some (Some ("/uploads/" +:+ file))).
Proof.
  apply (rev1_lifecycle half_draws env0 env0 Rev1.sample ∅); reflexivity.
Defined.

(** In the first revision the answers of the two updating routes do not tell
    whether the order exists: with a store that answers, the status update
    is always answered 200 [{ success: true }] and the upload 200 with the
    relative URL, and when no order has the id nothing is written. *)
Theorem rev1_updates_answer_blindly (env : Env) (id : string) (db : gmap string Rev1.Order) :
  storeError env = None →
  (∀ s, (Rev1.putStatus env id s db).2 = Rev1.respond 200 Rev1.Success)
  ∧ (∀ file, (Rev1.uploadReceipt env id (Some file) db).2
             = Rev1.respond 200 (Rev1.UploadedUrl ("/uploads/" +:+ file)))
  ∧ (db !! id = None →
       (∀ s, (Rev1.putStatus env id s db).1 = db)
       ∧ (∀ file, (Rev1.uploadReceipt env id (Some file) db).1 = db)).
Proof.
  intros Hup.
  unfold Rev1.putStatus, Rev1.uploadReceipt, Rev1.Order_findOneAndUpdate, Rev1.store.
  rewrite Hup. split; [|split].
  - intros s. by destruct (db !! id).
  - intros file. by destruct (db !! id).
  - intros ->. done.
Qed.

Lemma rev1_updates_answer_blindly_witness :
  (∀ s, (Rev1.putStatus env0 "EQ-0000-000" s ∅).2 = Rev1.respond 200 Rev1.Success)
  ∧ (∀ file, (Rev1.uploadReceipt env0 "EQ-0000-000" (Some file) ∅).2
             = Rev1.respond 200 (Rev1.UploadedUrl ("/uploads/" +:+ file)))
  ∧ ((∅ : gmap string Rev1.Order) !! "EQ-0000-000" = None →
       (∀ s, (Rev1.putStatus env0 "EQ-0000-000" s ∅).1 = ∅)
       ∧ (∀ file, (Rev1.uploadReceipt env0 "EQ-0000-000" (Some file) ∅).1 = ∅)).
Proof. apply (rev1_updates_answer_blindly env0 "EQ-0000-000" ∅). reflexivity. Defined.

(** ** Second and third revision: allowed origins *)

Lemma indexOf_from_missing (i : Z) (xs : list string) (x : string) :
  0 ≤ i → (indexOf_from i xs x = -1 ↔ x ∉ xs).
Proof.
  revert i. induction xs as [|y xs IH]; intros i Hi; simpl.
  - split; [intros _; apply not_elem_of_nil | done].
  - destruct (String.eqb_spec y x) as [->|Hne].
    + split; [lia | intros Hnot; destruct Hnot; left].
    + rewrite IH by lia. rewrite not_elem_of_cons.
      split; [intros Hxs; split; [congruence | done] | by intros [_ Hxs]].
Qed.

Lemma indexOf_missing (xs : list string) (x : string) : indexOf xs x = -1 ↔ x ∉ xs.
Proof. by apply indexOf_from_missing. Qed.

(** The CORS check of the second and third revision: a request is let
    through exactly when it has no Origin (or an empty one) or its Origin is,
    character for character, one of the listed origins; the third revision
    lets through everything the second did. *)
Theorem cors_origin_rules (o : option string) :
  (Rev2.origin o = Allowed
   ↔ o = None ∨ o = Some "" ∨ ∃ s, o = Some s ∧ s ∈ Rev2.allowedOrigins)
  ∧ (Rev3.origin o = Allowed
     ↔ o = None ∨ o = Some "" ∨ ∃ s, o = Some s ∧ s ∈ Rev3.allowedOrigins)
  ∧ (Rev2.origin o = Allowed → Rev3.origin o = Allowed).
Proof.
  assert (Hrule : ∀ (allowed : list string) (msg : string),
            (match o with
             | None => Allowed
             | Some s => if negb (truthy s) then Allowed
                         else if indexOf allowed s =? -1 then Blocked msg else Allowed
             end = Allowed)
            ↔ o = None ∨ o = Some "" ∨ ∃ s, o = Some s ∧ s ∈ allowed).
  { intros allowed msg. destruct o as [s|]; [|split; [by left | done]].
    destruct (truthy s) eqn:Htruthy; simpl.
    - apply truthy_nonempty in Htruthy.
      destruct (Z.eqb_spec (indexOf allowed s) (-1)) as [Hmiss|Hhit].
      + apply indexOf_missing in Hmiss. split; [discriminate|].
        intros [Hnone | [Hempty | (s' & Hs' & Hin)]]; [discriminate | congruence |].
        congruence.
      + split; [intros _ | done]. right. right. exists s. split; [done|].
        destruct (decide (s ∈ allowed)) as [|Hnot]; [done|].
        by apply indexOf_missing in Hnot.
    - split; [intros _ | done]. right. left. f_equal.
      destruct (decide (s = "")) as [|Hne]; [done|].
      apply truthy_nonempty in Hne. congruence. }
  split; [apply Hrule|]. split; [apply Hrule|].
  intros H2. apply (Hrule Rev2.allowedOrigins) in H2.
  apply (Hrule Rev3.allowedOrigins).
  destruct H2 as [?|[?|(s & ? & Hin)]]; [by left | by right; left |].
  right. right. exists s. split; [done|].
  unfold Rev2.allowedOrigins in Hin. unfold Rev3.allowedOrigins.
  rewrite !elem_of_cons in Hin. rewrite !elem_of_cons. tauto.
Qed.

Lemma cors_origin_rules_witness :
  Rev3.origin (Some "https://equine-4ya0.onrender.com") = Allowed.
Proof.
  destruct (cors_origin_rules (Some "https://equine-4ya0.onrender.com")) as (_ & _ & Hgrow).
  apply Hgrow. reflexivity.
Defined.

Example cors_trailing_slash_blocked :
  Rev3.origin (Some "https://equine-4ya0.onrender.com/")
  = Blocked "CORS Policy Blocked: Unauthorized Origin".
Proof. reflexivity. Qed.

(** ** Third revision: the short reference *)

(** The third revision generates 'EQ-' and one four-digit number in
    [1000,9999]: seven characters, never of the later form [EQ-dddd-ddd];
    as in the last revision an absent or empty orderId is replaced by the
    generated one and any other string is kept. *)
Theorem rev3_reference_format (env : Env) :
  random_draw (random1 env) →
  (∃ a, 1000 ≤ a ≤ 9999 ∧ Rev3.randomRef env = "EQ-" +:+ pretty a
      ∧ is_group4 (pretty a) = true)
  ∧ String.length (Rev3.randomRef env) = 7%nat
  ∧ is_generated_format (Rev3.randomRef env) = false
  ∧ Rev3.assignedId env None = Rev3.randomRef env
  ∧ Rev3.assignedId env (Some "") = Rev3.randomRef env
  ∧ (∀ s, s ≠ "" → Rev3.assignedId env (Some s) = s).
Proof.
  intros Hr.
  pose proof (floor_range 1000 9000 13 _ eq_refl ltac:(lia) eq_refl ltac:(lia) Hr) as Ha.
  pose proof (four_digits _ Ha) as H4.
  change (Math_floor (fadd (inject_Z 1000) (fmul (random1 env) (inject_Z 9000))))
    with (Math_floor (fadd 1000 (fmul (random1 env) 9000))) in *.
  split; [by eexists|].
  split.
  { unfold Rev3.randomRef.
    by destruct (pretty (Math_floor (fadd 1000 (fmul (random1 env) 9000))))
      as [|a1 [|a2 [|a3 [|a4 [|]]]]]. }
  split.
  { unfold Rev3.randomRef.
    by destruct (pretty (Math_floor (fadd 1000 (fmul (random1 env) 9000))))
      as [|a1 [|a2 [|a3 [|a4 [|]]]]]. }
  do 2 (split; [reflexivity|]).
  intros s Hne. unfold Rev3.assignedId. apply truthy_nonempty in Hne. by rewrite Hne.
Qed.

Lemma rev3_reference_format_witness :
  (∃ a, 1000 ≤ a ≤ 9999 ∧ Rev3.randomRef half_draws = "EQ-" +:+ pretty a
      ∧ is_group4 (pretty a) = true)
  ∧ String.length (Rev3.randomRef half_draws) = 7%nat
  ∧ is_generated_format (Rev3.randomRef half_draws) = false
  ∧ Rev3.assignedId half_draws None = Rev3.randomRef half_draws
  ∧ Rev3.assignedId half_draws (Some "") = Rev3.randomRef half_draws
  ∧ (∀ s, s ≠ "" → Rev3.assignedId half_draws (Some s) = s).
Proof.
  apply (rev3_reference_format half_draws). split; [reflexivity | split; simpl; lra].
Defined.

Example rev3_reference_sample : Rev3.randomRef half_draws = "EQ-5500".
Proof. reflexivity. Qed.
